(** * LongHorizon_with_NHITS: the notebook and what it computes

    The repository is one Jupyter notebook,
    [nbs/examples/LongHorizon_with_NHITS.ipynb].  This development holds

    - the abstract syntax of the Python fragment the notebook is written
      in, and the notebook itself, cell by cell ([Py], [Notebook]);
    - the syntactic analyses the statements below are about: call sites,
      imports, accesses to a data frame, the search space ([Analysis]);
    - an interpreter of statements over an arbitrary Python store, with
      exceptions ([Exec]);
    - the arithmetic the notebook does itself: the split sizes
      [int(.2 * n_time)] in IEEE binary64, the look-ups of the split
      markers, and the reshape of the cross-validation columns
      ([Float64], [Splits], [Evaluate]). *)

From Stdlib Require Import ZArith List String Bool Lia Reals Lra.
From Stdlib Require Import Floats.SpecFloat.
From stdpp Require Import base option list strings gmap.
Import ListNotations.

Local Open Scope Z_scope.
Local Open Scope string_scope.
Local Open Scope list_scope.

(* ================================================================== *)
(** * Python syntax *)
(* ================================================================== *)

Module Py.

Inductive binop := Add | Sub | Mult | Div | FloorDiv | Mod.
Inductive unop := USub | Not.
Inductive cmpop := Eq | NotEq | Lt | LtE | Gt | GtE | Is | IsNot | In | NotIn.

#[local] Unset Elimination Schemes.

(** Expressions, with the constructor names of Python's [ast] module.
    A float literal is kept as its source text. *)
Inductive expr :=
| Name (id : string)
| Int (n : Z)
| Float (text : string)
| Str (s : string)
| NoneConst
| JoinedStr (parts : list expr)
| Attribute (value : expr) (attr : string)
| Subscript (value : expr) (index : expr)
| Slice (lower upper : option expr)
| Tuple (elts : list expr)
| List (elts : list expr)
| Dict (items : list (expr * expr))
| Call (func : expr) (args : list expr) (keywords : list (string * expr))
| BinOp (left : expr) (op : binop) (right : expr)
| UnaryOp (op : unop) (operand : expr)
| Compare (left : expr) (op : cmpop) (right : expr)
| Lambda (params : list string) (body : expr)
| Await (value : expr).

(** Statements.  [System] is IPython's shell escape, a line that starts
    with [!].  A dotted module name is the list of its components. *)
Inductive stmt :=
| Expr (value : expr)
| Assign (target : expr) (value : expr)
| Import (module : list string) (asname : option string)
| ImportFrom (module : list string) (names : list (string * option string))
| System (command : string)
| For (target : expr) (iter : expr) (body : list stmt)
| If (test : expr) (body : list stmt) (orelse : list stmt)
| Try (body : list stmt) (handlers : list (option expr * list stmt))
| Raise (exc : expr)
| Assert (test : expr)
| FunctionDef (name : string) (params : list string) (body : list stmt)
| AsyncFunctionDef (name : string) (params : list string) (body : list stmt)
| ClassDef (name : string) (body : list stmt).

#[local] Set Elimination Schemes.

(** Induction on statements: the statements of a block may be assumed to
    have the property. *)
Section StmtInduction.

Variable P : stmt -> Prop.
Hypothesis P_Expr : forall v, P (Expr v).
Hypothesis P_Assign : forall t v, P (Assign t v).
Hypothesis P_Import : forall m a, P (Import m a).
Hypothesis P_ImportFrom : forall m ns, P (ImportFrom m ns).
Hypothesis P_System : forall c, P (System c).
Hypothesis P_For : forall t it body, Forall P body -> P (For t it body).
Hypothesis P_If : forall test body orelse,
  Forall P body -> Forall P orelse -> P (If test body orelse).
Hypothesis P_Try : forall body handlers,
  Forall P body -> Forall (fun h => Forall P (snd h)) handlers ->
  P (Try body handlers).
Hypothesis P_Raise : forall e, P (Raise e).
Hypothesis P_Assert : forall e, P (Assert e).
Hypothesis P_FunctionDef : forall f ps body, Forall P body -> P (FunctionDef f ps body).
Hypothesis P_AsyncFunctionDef : forall f ps body,
  Forall P body -> P (AsyncFunctionDef f ps body).
Hypothesis P_ClassDef : forall c body, Forall P body -> P (ClassDef c body).

Fixpoint stmt_induction (s : stmt) : P s :=
  let block := fix block (ss : list stmt) : Forall P ss :=
                 match ss with
                 | [] => @List.Forall_nil stmt P
                 | x :: rest => @List.Forall_cons stmt P x rest (stmt_induction x) (block rest)
                 end in
  match s with
  | Expr v => P_Expr v
  | Assign t v => P_Assign t v
  | Import m a => P_Import m a
  | ImportFrom m ns => P_ImportFrom m ns
  | System c => P_System c
  | For t it body => P_For t it body (block body)
  | If test body orelse => P_If test body orelse (block body) (block orelse)
  | Try body handlers =>
      P_Try body handlers (block body)
        ((fix each (hs : list (option expr * list stmt))
            : Forall (fun h => Forall P (snd h)) hs :=
            match hs with
            | [] => @List.Forall_nil _ _
            | h :: rest => @List.Forall_cons _ _ h rest (block (snd h)) (each rest)
            end) handlers)
  | Raise e => P_Raise e
  | Assert e => P_Assert e
  | FunctionDef f ps body => P_FunctionDef f ps body (block body)
  | AsyncFunctionDef f ps body => P_AsyncFunctionDef f ps body (block body)
  | ClassDef c body => P_ClassDef c body (block body)
  end.

End StmtInduction.

(** A notebook cell: markdown (kept by its opening words) or code, with the
    cell magic of its first line, when it has one. *)
Inductive cell :=
| Markdown (opening : string)
| Code (magic : option string) (source : list stmt).

Definition notebook := list cell.

End Py.
Import Py.

(* ================================================================== *)
(** * The notebook *)
(* ================================================================== *)

Module Notebook.

(** Shorthands for the shapes the cells repeat. *)
Definition dot (e : expr) (a : string) : expr := Attribute e a.
Definition call (f : expr) (args : list expr) : expr := Call f args [].
Definition ints (l : list Z) : expr := List (map Int l).

Definition cell_install : cell :=
  Code (Some "%%capture")
    [ System "pip install neuralforecast datasetsforecast" ].

Definition cell_imports : cell :=
  Code None
    [ Import ["torch"] None;
      Import ["numpy"] (Some "np");
      Import ["pandas"] (Some "pd");
      Import ["matplotlib"; "pyplot"] (Some "plt");
      ImportFrom ["ray"] [("tune", None)];
      ImportFrom ["neuralforecast"; "auto"] [("AutoNHITS", None)];
      ImportFrom ["neuralforecast"; "core"] [("NeuralForecast", None)];
      ImportFrom ["neuralforecast"; "losses"; "pytorch"] [("MAE", None)];
      ImportFrom ["neuralforecast"; "losses"; "numpy"]
        [("mae", None); ("mse", None)];
      ImportFrom ["datasetsforecast"; "long_horizon"] [("LongHorizon", None)] ].

Definition cell_logging : cell :=
  Code None
    [ Import ["logging"] None;
      Expr (call (dot (call (dot (Name "logging") "getLogger")
                             [Str "pytorch_lightning"]) "setLevel")
                 [dot (Name "logging") "WARNING"]) ].

Definition cell_cuda : cell :=
  Code None
    [ Expr (call (dot (dot (Name "torch") "cuda") "is_available") []) ].

(** [.2 * n_time], the expression both split sizes are computed from. *)
Definition fifth_of_n_time : expr :=
  call (Name "int") [BinOp (Float ".2") Mult (Name "n_time")].

Definition cell_load : cell :=
  Code None
    [ Assign (Tuple [Name "Y_df"; Name "_"; Name "_"])
        (Call (dot (Name "LongHorizon") "load") []
              [("directory", Str "./"); ("group", Str "ETTm2")]);
      Assign (Subscript (Name "Y_df") (Str "ds"))
        (call (dot (Name "pd") "to_datetime")
              [Subscript (Name "Y_df") (Str "ds")]);
      Assign (Name "n_time")
        (call (Name "len")
              [call (dot (dot (Name "Y_df") "ds") "unique") []]);
      Assign (Name "val_size") fifth_of_n_time;
      Assign (Name "test_size") fifth_of_n_time;
      Expr (call (dot (call (dot (Name "Y_df") "groupby") [Str "unique_id"])
                      "head") [Int 2]) ].

(** [Y_df[Y_df.unique_id==u_id]], the rows of the plotted series. *)
Definition rows_of_u_id : expr :=
  Subscript (Name "Y_df")
    (Compare (dot (Name "Y_df") "unique_id") Eq (Name "u_id")).

Definition plt (f : string) (args : list expr) (kw : list (string * expr)) : stmt :=
  Expr (Call (dot (Name "plt") f) args kw).

Definition cell_plot_series : cell :=
  Code None
    [ Assign (Name "u_id") (Str "HUFL");
      Assign (Name "x_plot")
        (call (dot (Name "pd") "to_datetime") [dot rows_of_u_id "ds"]);
      Assign (Name "y_plot") (dot (dot rows_of_u_id "y") "values");
      Assign (Name "x_val")
        (Subscript (Name "x_plot")
           (BinOp (BinOp (Name "n_time") Sub (Name "val_size"))
                  Sub (Name "test_size")));
      Assign (Name "x_test")
        (Subscript (Name "x_plot")
           (BinOp (Name "n_time") Sub (Name "test_size")));
      Assign (Name "fig")
        (Call (dot (Name "plt") "figure") []
              [("figsize", Tuple [Int 10; Int 5])]);
      Expr (call (dot (Name "fig") "tight_layout") []);
      plt "plot" [Name "x_plot"; Name "y_plot"] [];
      plt "xlabel" [Str "Date"] [("fontsize", Int 17)];
      plt "ylabel" [Str "HUFL [15 min temperature]"] [("fontsize", Int 17)];
      plt "axvline" [Name "x_val"]
        [("color", Str "black"); ("linestyle", Str "-.")];
      plt "axvline" [Name "x_test"]
        [("color", Str "black"); ("linestyle", Str "-.")];
      plt "text" [Name "x_val"; Int 5; Str "  Validation"] [("fontsize", Int 12)];
      plt "text" [Name "x_test"; Int 5; Str "  Test"] [("fontsize", Int 12)];
      plt "grid" [] [];
      plt "show" [] [];
      plt "close" [] [] ].

Definition cell_series_ids : cell :=
  Code None
    [ Expr (call (dot (dot (Name "Y_df") "unique_id") "unique") []) ].

Definition choice (options : list expr) : expr :=
  call (dot (Name "tune") "choice") [List options].

(** The dictionary display bound to [nhits_config]. *)
Definition nhits_config : expr :=
  Dict
    [ (Str "learning_rate", choice [Float "1e-3"]);
      (Str "max_steps", choice [Int 1000]);
      (Str "input_size", choice [BinOp (Int 5) Mult (Name "horizon")]);
      (Str "batch_size", choice [Int 7]);
      (Str "windows_batch_size", choice [Int 256]);
      (Str "n_pool_kernel_size", choice [ints [2; 2; 2]; ints [16; 8; 1]]);
      (Str "n_freq_downsample",
         choice [ints [168; 24; 1]; ints [24; 12; 1]; ints [1; 1; 1]]);
      (Str "activation", choice [Str "ReLU"]);
      (Str "n_blocks", choice [ints [1; 1; 1]]);
      (Str "mlp_units",
         choice [List [ints [512; 512]; ints [512; 512]; ints [512; 512]]]);
      (Str "interpolation_mode", choice [Str "linear"]);
      (Str "random_seed", call (dot (Name "tune") "randint") [Int 1; Int 10]) ].

Definition cell_config : cell :=
  Code None
    [ Assign (Name "horizon") (Int 96);
      Assign (Name "nhits_config") nhits_config ].

Definition cell_fit : cell :=
  Code (Some "%%capture")
    [ Assign (Name "fcst")
        (Call (Name "NeuralForecast") []
           [ ("models",
               List [ Call (Name "AutoNHITS") []
                        [ ("h", Name "horizon");
                          ("config", Name "nhits_config");
                          ("num_samples", Int 5) ] ]);
             ("freq", Str "15min") ]);
      Assign (Name "fcst_df")
        (Call (dot (Name "fcst") "cross_validation") []
           [ ("df", Name "Y_df");
             ("val_size", Name "val_size");
             ("test_size", Name "test_size");
             ("n_windows", NoneConst) ]) ].

Definition cell_best_config : cell :=
  Code None
    [ Expr (dot (call (dot (dot (Subscript (dot (Name "fcst") "models") (Int 0))
                                "results") "get_best_result") [])
                "config") ].

Definition reshaped (a : string) : expr :=
  call (dot (Name a) "reshape")
       [Name "n_series"; UnaryOp USub (Int 1); Name "horizon"].

Definition print (args : list expr) : stmt := Expr (call (Name "print") args).

Definition cell_parse_results : cell :=
  Code None
    [ Assign (Name "y_true") (dot (dot (Name "fcst_df") "y") "values");
      Assign (Name "y_hat")
        (dot (Subscript (Name "fcst_df") (Str "AutoNHITS")) "values");
      Assign (Name "n_series")
        (call (Name "len")
              [call (dot (dot (Name "Y_df") "unique_id") "unique") []]);
      Assign (Name "y_true") (reshaped "y_true");
      Assign (Name "y_hat") (reshaped "y_hat");
      print [Str "Parsed results"];
      print [Str "2. y_true.shape (n_series, n_windows, n_time_out):\t";
             dot (Name "y_true") "shape"];
      print [Str "2. y_hat.shape  (n_series, n_windows, n_time_out):\t";
             dot (Name "y_hat") "shape"] ].

(** [a[series_idx, w_idx, :]] *)
Definition window_of (a : string) : expr :=
  Subscript (Name a)
    (Tuple [Name "series_idx"; Name "w_idx"; Slice None None]).

Definition axs_idx (f : string) (args : list expr) (kw : list (string * expr)) : stmt :=
  Expr (Call (dot (Subscript (Name "axs") (Name "idx")) f) args kw).

Definition cell_plot_forecasts : cell :=
  Code None
    [ Assign (Tuple [Name "fig"; Name "axs"])
        (Call (dot (Name "plt") "subplots") []
           [ ("nrows", Int 3); ("ncols", Int 1);
             ("figsize", Tuple [Int 10; Int 11]) ]);
      Expr (call (dot (Name "fig") "tight_layout") []);
      Assign (Name "series")
        (List [Str "HUFL"; Str "HULL"; Str "LUFL"; Str "LULL";
               Str "MUFL"; Str "MULL"; Str "OT"]);
      Assign (Name "series_idx") (Int 3);
      For (Tuple [Name "idx"; Name "w_idx"])
          (call (Name "enumerate") [ints [200; 300; 400]])
        [ axs_idx "plot" [window_of "y_true"] [("label", Str "True")];
          axs_idx "plot" [window_of "y_hat"] [("label", Str "Forecast")];
          axs_idx "grid" [] [];
          axs_idx "set_ylabel"
            [BinOp (Subscript (Name "series") (Name "series_idx")) Add
                   (JoinedStr [Str " window "; Name "w_idx"])]
            [("fontsize", Int 17)];
          If (Compare (Name "idx") Eq (Int 2))
            [ axs_idx "set_xlabel" [Str "Forecast Horizon"]
                [("fontsize", Int 17)] ]
            [] ];
      plt "legend" [] [];
      plt "show" [] [];
      plt "close" [] [] ].

Definition cell_metrics : cell :=
  Code None
    [ print [Str "MAE: "; call (Name "mae") [Name "y_hat"; Name "y_true"]];
      print [Str "MSE: "; call (Name "mse") [Name "y_hat"; Name "y_true"]] ].

Definition cell_empty : cell := Code None [].

(** The cells in file order. *)
Definition cells : notebook :=
  [ Markdown "# Long-Horizon Forecast";
    Markdown "Long-horizon forecasting is challenging";
    Markdown "You can run these experiments using GPU with Google Colab.";
    Markdown "## 1. Installing NeuralForecast";
    cell_install;
    cell_imports;
    cell_logging;
    Markdown "This example will automatically run on GPUs if available.";
    cell_cuda;
    Markdown "## 2. Load ETTm2 Data";
    cell_load;
    cell_plot_series;
    cell_series_ids;
    Markdown "## 3. Define Hyperparameter Space";
    cell_config;
    Markdown "You can override the NHiTS config for each hyperparameter.";
    Markdown ":::{.callout-tip}";
    Markdown "We fit the model by instantiating a NeuralForecast object";
    Markdown "The cross_validation method allows the user to simulate";
    cell_fit;
    Markdown "## 5. Evaluate Results";
    cell_best_config;
    cell_parse_results;
    cell_plot_forecasts;
    Markdown "Finally, we compute the test errors";
    cell_metrics;
    Markdown "For reference we can check the performance";
    cell_empty ].

End Notebook.
Import Notebook.

(* ================================================================== *)
(** * Syntactic analyses *)
(* ================================================================== *)

Module Analysis.

(** ** Cells and statements *)

Definition code_cells (nb : notebook) : list (option string * list stmt) :=
  flat_map (fun c => match c with
                     | Code magic source => [(magic, source)]
                     | Markdown _ => []
                     end) nb.

(** A statement and the statements nested in it, in source order. *)
Fixpoint flatten (s : stmt) : list stmt :=
  s :: match s with
       | For _ _ body => flat_map flatten body
       | If _ body orelse => flat_map flatten body ++ flat_map flatten orelse
       | Try body handlers =>
           flat_map flatten body
           ++ flat_map (fun h => flat_map flatten (snd h)) handlers
       | FunctionDef _ _ body | AsyncFunctionDef _ _ body | ClassDef _ body =>
           flat_map flatten body
       | _ => []
       end.

Definition cell_statements (source : list stmt) : list stmt :=
  flat_map flatten source.

Definition statements (nb : notebook) : list stmt :=
  flat_map (fun c => cell_statements (snd c)) (code_cells nb).

(** The part of an assignment target that is evaluated: a bare name (or a
    tuple of names) is only bound. *)
Definition is_name (e : expr) : bool :=
  match e with Name _ => true | _ => false end.

Definition target_exprs (t : expr) : list expr :=
  match t with
  | Name _ => []
  | Tuple elts => List.filter (fun e => negb (is_name e)) elts
  | _ => [t]
  end.

(** The expressions a statement evaluates itself (not those of nested
    statements, which [flatten] lists separately). *)
Definition stmt_exprs (s : stmt) : list expr :=
  match s with
  | Expr v => [v]
  | Assign t v => v :: target_exprs t
  | For t it _ => it :: target_exprs t
  | If test _ _ => [test]
  | Try _ handlers =>
      flat_map (fun h => match fst h with Some e => [e] | None => [] end) handlers
  | Raise e => [e]
  | Assert e => [e]
  | _ => []
  end.

(** ** Postfix chains

    [fcst.models[0].results.get_best_result().config] is the root [fcst]
    followed by six links. *)
Inductive link :=
| LAttr (attr : string)
| LItem (index : expr)
| LCall (args : list expr) (keywords : list (string * expr)).

Fixpoint spine (e : expr) : expr * list link :=
  match e with
  | Attribute v a => let (r, ls) := spine v in (r, ls ++ [LAttr a])
  | Subscript v i => let (r, ls) := spine v in (r, ls ++ [LItem i])
  | Call f args kw => let (r, ls) := spine f in (r, ls ++ [LCall args kw])
  | _ => (e, [])
  end.

(** The maximal chains of an expression, outermost first and left to
    right.  [top] tells whether [e] is the head of a longer chain. *)
Fixpoint walk (top : bool) (e : expr) {struct e} : list expr :=
  let here := if top then [e] else [] in
  let opt := fun o : option expr =>
               match o with Some x => walk true x | None => [] end in
  match e with
  | Name _ => here
  | Attribute v _ => here ++ walk false v
  | Subscript v i => here ++ walk false v ++ walk true i
  | Call f args kw =>
      here ++ walk false f ++ flat_map (walk true) args
           ++ flat_map (fun p => walk true (snd p)) kw
  | Int _ | Float _ | Str _ | NoneConst => []
  | JoinedStr es | Tuple es | List es => flat_map (walk true) es
  | Slice lo hi => opt lo ++ opt hi
  | Dict items => flat_map (fun p => walk true (fst p) ++ walk true (snd p)) items
  | BinOp l _ r | Compare l _ r => walk true l ++ walk true r
  | UnaryOp _ x | Lambda _ x | Await x => walk true x
  end.

Definition chains (e : expr) : list (expr * list link) :=
  map spine (walk true e).

Definition stmt_chains (s : stmt) : list (expr * list link) :=
  flat_map chains (stmt_exprs s).

(** ** Call sites

    A call site is the root of its chain and the attribute names between
    the root and the call: [Y_df.groupby('unique_id').head(2)] has the
    call sites [Y_df.groupby] and [Y_df.groupby.head]. *)
Definition call_site : Type := expr * list string.

Fixpoint calls_of_links (root : expr) (seen : list string) (ls : list link)
  : list call_site :=
  match ls with
  | [] => []
  | LAttr a :: rest => calls_of_links root (seen ++ [a]) rest
  | LItem _ :: rest => calls_of_links root seen rest
  | LCall _ _ :: rest => (root, seen) :: calls_of_links root seen rest
  end.

Definition stmt_calls (s : stmt) : list call_site :=
  flat_map (fun c => calls_of_links (fst c) [] (snd c)) (stmt_chains s).

Definition notebook_calls (nb : notebook) : list call_site :=
  flat_map stmt_calls (statements nb).

(** The dotted name of a call site whose root is a name. *)
Definition dotted (c : call_site) : option (list string) :=
  match fst c with
  | Name r => Some (r :: snd c)
  | _ => None
  end.

(** ** Names: imports, builtins, variables *)

(** What an import statement binds: the local name and the dotted path of
    what it stands for. *)
Definition imports_of (s : stmt) : list (string * list string) :=
  match s with
  | Import m (Some a) => [(a, m)]
  | Import m None => match m with
                     | top :: _ => [(top, [top])]
                     | [] => []
                     end
  | ImportFrom m names =>
      map (fun na => (match snd na with Some a => a | None => fst na end,
                      m ++ [fst na])) names
  | _ => []
  end.

Definition import_env (nb : notebook) : gmap string (list string) :=
  list_to_map (flat_map imports_of (statements nb)).

Definition names_of_target (t : expr) : list string :=
  match t with
  | Name x => [x]
  | Tuple elts => flat_map (fun e => match e with Name x => [x] | _ => [] end) elts
  | _ => []
  end.

(** The variables a statement binds. *)
Definition binds (s : stmt) : list string :=
  match s with
  | Assign t _ | For t _ _ => names_of_target t
  | FunctionDef f _ _ | AsyncFunctionDef f _ _ | ClassDef f _ => [f]
  | _ => []
  end.

Definition variables (nb : notebook) : list string :=
  flat_map binds (statements nb).

(** Python's built-in functions. *)
Definition builtins : list string :=
  [ "abs"; "all"; "any"; "bool"; "dict"; "enumerate"; "filter"; "float";
    "getattr"; "int"; "isinstance"; "iter"; "len"; "list"; "map"; "max";
    "min"; "next"; "open"; "print"; "range"; "repr"; "reversed"; "round";
    "set"; "sorted"; "str"; "sum"; "tuple"; "type"; "zip" ].

Definition mem (x : string) (l : list string) : bool :=
  existsb (String.eqb x) l.

Inductive origin :=
| Imported (path : list string)
| Assigned
| Builtin
| Unbound.

(** Where the root name of a call comes from.  An import shadows a
    builtin, and so does an assignment. *)
Definition resolve (nb : notebook) (r : string) : origin :=
  match import_env nb !! r with
  | Some path => Imported path
  | None => if mem r (variables nb) then Assigned
            else if mem r builtins then Builtin
            else Unbound
  end.

Definition origin_of (nb : notebook) (c : call_site) : origin :=
  match fst c with
  | Name r => resolve nb r
  | _ => Unbound
  end.


(** Every subexpression of an expression, itself included. *)
Fixpoint subexprs (e : expr) {struct e} : list expr :=
  let opt := fun o : option expr =>
               match o with Some x => subexprs x | None => [] end in
  e :: match e with
       | Name _ | Int _ | Float _ | Str _ | NoneConst => []
       | Attribute v _ => subexprs v
       | Subscript v i => subexprs v ++ subexprs i
       | Call f args kw =>
           subexprs f ++ flat_map subexprs args
           ++ flat_map (fun p => subexprs (snd p)) kw
       | JoinedStr es | Tuple es | List es => flat_map subexprs es
       | Slice lo hi => opt lo ++ opt hi
       | Dict items => flat_map (fun p => subexprs (fst p) ++ subexprs (snd p)) items
       | BinOp l _ r | Compare l _ r => subexprs l ++ subexprs r
       | UnaryOp _ x | Lambda _ x | Await x => subexprs x
       end.

(** ** The operations of the pipeline *)

Definition last_attr (c : call_site) : option string := last (snd c).

(** [LongHorizon.load]: a [load] of something imported from
    datasetsforecast. *)
Definition is_loader (nb : notebook) (c : call_site) : bool :=
  match origin_of nb c, last_attr c with
  | Imported ("datasetsforecast" :: _), Some "load" => true
  | _, _ => false
  end.

(** A direct call of the class [neuralforecast.core.NeuralForecast]. *)
Definition is_forecaster_constructor (nb : notebook) (c : call_site) : bool :=
  match origin_of nb c, snd c with
  | Imported ["neuralforecast"; "core"; "NeuralForecast"], [] => true
  | _, _ => false
  end.

(** A call of the method [cross_validation] of a variable. *)
Definition is_cross_validation (nb : notebook) (c : call_site) : bool :=
  match origin_of nb c, last_attr c with
  | Assigned, Some "cross_validation" => true
  | _, _ => false
  end.

(** A direct call of a function imported from [neuralforecast.losses]. *)
Definition is_loss (nb : notebook) (c : call_site) : bool :=
  match origin_of nb c, snd c with
  | Imported ("neuralforecast" :: "losses" :: _), [] => true
  | _, _ => false
  end.














(** ** The interface: the role of a call *)

Inductive role :=
| DatasetLoader
| ForecasterConstructor
| CrossValidationMethod
| LossFunction.

Definition interface_role (nb : notebook) (c : call_site) : option role :=
  if is_loader nb c then Some DatasetLoader
  else if is_forecaster_constructor nb c then Some ForecasterConstructor
  else if is_cross_validation nb c then Some CrossValidationMethod
  else if is_loss nb c then Some LossFunction
  else None.

(** Logic of the notebook's own: function and class definitions, and
    lambda expressions. *)
Definition defines_logic (s : stmt) : bool :=
  match s with
  | FunctionDef _ _ _ | AsyncFunctionDef _ _ _ | ClassDef _ _ => true
  | _ => existsb (fun e => match e with Lambda _ _ => true | _ => false end)
                 (flat_map subexprs (stmt_exprs s))
  end.

Definition own_logic (nb : notebook) : list stmt :=
  List.filter defines_logic (statements nb).

Fixpoint dedup (l : list (list string)) : list (list string) :=
  match l with
  | [] => []
  | x :: r => x :: List.filter (fun y => negb (bool_decide (x = y))) (dedup r)
  end.

(** The dotted names of the calls that have no role in the interface. *)
Definition other_calls (nb : notebook) : list (list string) :=
  dedup (omap dotted
           (List.filter (fun c => match interface_role nb c with
                                  | Some _ => false
                                  | None => true
                                  end)
                        (notebook_calls nb))).

(** ** Accesses to a data frame *)

Inductive access :=
| Whole
| Column (name : string)
| RowsColumn (name : string)
| Rows
| GroupedBy (keys : list string)
| GroupedColumn (keys : list string) (name : string)
| GroupedRows (keys : list string) (method : string)
| Method (name : string).

Definition string_literals (es : list expr) : list string :=
  flat_map (fun e => match e with Str s => [s] | _ => [] end) es.

(** What a chain does with the frame at its root: [Y_df.ds] and
    [Y_df['ds']] read a column, [Y_df[rows].ds] a column of some rows,
    [Y_df.groupby('k')] groups by column [k]; of the groups
    [.groupby('k').c] reads a column and [.groupby('k').head(2)] calls a
    method, which works on whole rows. *)
Definition access_of (ls : list link) : access :=
  match ls with
  | [] => Whole
  | LAttr m :: LCall args _ :: rest =>
      if String.eqb m "groupby" then
        match rest with
        | LAttr f :: LCall _ _ :: _ => GroupedRows (string_literals args) f
        | LAttr c :: _ | LItem (Str c) :: _ => GroupedColumn (string_literals args) c
        | _ => GroupedBy (string_literals args)
        end
      else Method m
  | LAttr c :: _ => Column c
  | LItem (Str c) :: _ => Column c
  | LItem _ :: LAttr m :: LCall _ _ :: _ => Method m
  | LItem _ :: LAttr c :: _ => RowsColumn c
  | LItem _ :: LItem (Str c) :: _ => RowsColumn c
  | LItem _ :: _ => Rows
  | LCall _ _ :: _ => Method "__call__"
  end.

Definition rooted_at (frame : string) (c : expr * list link) : bool :=
  match fst c with
  | Name r => String.eqb r frame
  | _ => false
  end.

Definition frame_accesses (frame : string) (nb : notebook) : list access :=
  flat_map (fun s => map (fun c => access_of (snd c))
                         (List.filter (rooted_at frame) (stmt_chains s)))
           (statements nb).

Definition columns_of (a : access) : list string :=
  match a with
  | Column c | RowsColumn c => [c]
  | GroupedBy keys | GroupedRows keys _ => keys
  | GroupedColumn keys c => keys ++ [c]
  | Whole | Rows | Method _ => []
  end.

(** An access that is not through a column: the frame as it is, whole
    rows, or a method of the frame or of its groups. *)
Definition is_whole (a : access) : bool :=
  match a with
  | Whole | Rows | GroupedRows _ _ | Method _ => true
  | Column _ | RowsColumn _ | GroupedBy _ | GroupedColumn _ _ => false
  end.

Definition frame_columns (frame : string) (nb : notebook) : list string :=
  flat_map columns_of (frame_accesses frame nb).

(** The calls the frame is passed to as it is, with the keyword it is
    passed under (the empty string for a positional argument). *)
Fixpoint passed_in (frame : string) (root : expr) (seen : list string)
  (ls : list link) : list (call_site * string) :=
  match ls with
  | [] => []
  | LAttr a :: rest => passed_in frame root (seen ++ [a]) rest
  | LItem _ :: rest => passed_in frame root seen rest
  | LCall args kw :: rest =>
      let is_frame := fun e => match e with
                               | Name r => String.eqb r frame
                               | _ => false
                               end in
      map (fun _ => ((root, seen), "")) (List.filter is_frame args)
      ++ map (fun p => ((root, seen), fst p))
             (List.filter (fun p => is_frame (snd p)) kw)
      ++ passed_in frame root seen rest
  end.

Definition passed_whole (frame : string) (nb : notebook)
  : list (option (list string) * string) :=
  flat_map (fun s =>
              flat_map (fun c => map (fun p => (dotted (fst p), snd p))
                                     (passed_in frame (fst c) [] (snd c)))
                       (stmt_chains s))
           (statements nb).

(** ** The search space *)

(** The domains of [ray.tune]. *)
Inductive domain :=
| Categorical (options : list expr)
| IntegerRange (lower upper : expr)
| Continuous (sampler : string) (params : list expr).

Definition continuous_samplers : list string :=
  ["uniform"; "quniform"; "loguniform"; "qloguniform"; "randn"; "qrandn"].

(** The domain an expression denotes, when it is a call of a sampler of
    the module [ray.tune]. *)
Definition domain_of (nb : notebook) (e : expr) : option domain :=
  match spine e with
  | (Name r, [LAttr f; LCall args []]) =>
      match import_env nb !! r with
      | Some ["ray"; "tune"] =>
          match args with
          | [List options] =>
              if String.eqb f "choice" then Some (Categorical options)
              else if mem f continuous_samplers then Some (Continuous f args)
              else None
          | [lo; hi] =>
              if String.eqb f "randint" then Some (IntegerRange lo hi)
              else if mem f continuous_samplers then Some (Continuous f args)
              else None
          | _ => if mem f continuous_samplers then Some (Continuous f args)
                 else None
          end
      | _ => None
      end
  | _ => None
  end.

Definition is_categorical (d : domain) : bool :=
  match d with Categorical _ => true | _ => false end.
Definition is_integer_range (d : domain) : bool :=
  match d with IntegerRange _ _ => true | _ => false end.
Definition is_discrete (d : domain) : bool :=
  is_categorical d || is_integer_range d.

(** The items of a dictionary display as (name, domain) pairs: [None]
    when a key is not a string literal or a value is not a domain. *)
Definition domain_items (nb : notebook) (e : expr) : option (list (string * domain)) :=
  match e with
  | Dict items =>
      mapM (fun kv => match fst kv, domain_of nb (snd kv) with
                      | Str k, Some d => Some (k, d)
                      | _, _ => None
                      end) items
  | _ => None
  end.

(** The dictionary the display builds: a later item replaces an earlier
    one of the same key. *)
Definition search_space (nb : notebook) (e : expr) : option (gmap string domain) :=
  match domain_items nb e with
  | Some kds => Some (fold_left (fun m kd => <[fst kd := snd kd]> m) kds ∅)
  | None => None
  end.

(** The expression last assigned to a variable. *)
Definition assigned_value (nb : notebook) (x : string) : option expr :=
  last (flat_map (fun s => match s with
                           | Assign (Name y) v => if String.eqb x y then [v] else []
                           | _ => []
                           end) (statements nb)).

(** ** Error handling *)

Definition handles_errors (s : stmt) : bool :=
  match s with
  | Try _ _ | Raise _ | Assert _ => true
  | _ => false
  end.

(** A statement with no error handling in it, however deep. *)
Definition quiet (s : stmt) : Prop :=
  Forall (fun x => handles_errors x = false) (flatten s).

Definition error_handling (nb : notebook) : list stmt :=
  List.filter handles_errors (statements nb).

(** The tests of the conditional statements. *)
Definition branch_tests (nb : notebook) : list expr :=
  flat_map (fun s => match s with If test _ _ => [test] | _ => [] end)
           (statements nb).

(** ** Concurrency constructs *)

Definition concurrency_modules : list string :=
  ["threading"; "multiprocessing"; "asyncio"; "concurrent"; "subprocess";
   "_thread"].

Definition is_concurrent (s : stmt) : bool :=
  match s with
  | AsyncFunctionDef _ _ _ => true
  | Import (top :: _) _ | ImportFrom (top :: _) _ => mem top concurrency_modules
  | _ => existsb (fun e => match e with Await _ => true | _ => false end)
                 (flat_map subexprs (stmt_exprs s))
  end.

Definition shell_commands (nb : notebook) : list string :=
  flat_map (fun s => match s with System c => [c] | _ => [] end) (statements nb).

(** ** Summaries of a notebook *)

(** The calls that have a role in the interface, with their role. *)
Definition interface_calls (nb : notebook) : list (option (list string) * role) :=
  omap (fun c => (fun r => (dotted c, r)) <$> interface_role nb c)
       (notebook_calls nb).

(** The calls whose root is neither imported, nor assigned, nor built in. *)
Definition unresolved_calls (nb : notebook) : list call_site :=
  List.filter (fun c => match origin_of nb c with
                        | Unbound => true
                        | _ => false
                        end) (notebook_calls nb).








Definition nonempty_code_cells (nb : notebook) : list (option string * list stmt) :=
  List.filter (fun c => match snd c with [] => false | _ => true end)
              (code_cells nb).

(** ** Names read before they are bound *)












(** ** The size of the search space *)

(** The number of values of a domain: the options of a choice, the
    integers from [lower] up to but not including [upper] of a randint;
    [None] for a continuous domain or bounds that are not literals. *)
Definition cardinality (d : domain) : option Z :=
  match d with
  | Categorical options => Some (Z.of_nat (length options))
  | IntegerRange (Int lo) (Int hi) => Some (Z.max 0 (hi - lo))
  | _ => None
  end.

(** The number of configurations of a list of (name, domain) pairs. *)
Definition configurations (items : list (string * domain)) : option Z :=
  foldr (fun kd acc => n ← cardinality (snd kd); m ← acc; Some (n * m))
        (Some 1) items.

(** The names whose domain has more than one value. *)
Definition searched (items : list (string * domain)) : list string :=
  map fst (List.filter (fun kd => match cardinality (snd kd) with
                                  | Some 1 => false
                                  | _ => true
                                  end) items).

End Analysis.

(* ================================================================== *)
(** * Running statements *)
(* ================================================================== *)

Module Exec.

Section Semantics.

(** The Python store, the values and the exceptions are those of the
    interpreter that runs the notebook; nothing is assumed of them. *)
Context {store value exn : Type}.

(** How a run ends: normally, or with an exception and the store as it
    was when the exception was raised. *)
Inductive result (A : Type) :=
| Done (a : A)
| Raised (e : exn) (s : store).
Arguments Done {A} a.
Arguments Raised {A} e s.

(** What the interpreter and the libraries do: every library call of the
    notebook happens inside [eval]. *)
Record runtime := {
  eval : expr -> store -> result (value * store);
  assign : expr -> value -> store -> result store;
  import_module : stmt -> store -> result store;
  system : string -> store -> store;
  iterate : value -> store -> result (list value);
  truth : value -> store -> result bool;
  define : stmt -> store -> store;
  matches : option expr -> exn -> store -> bool;
  as_exception : value -> exn;
  assertion_error : exn
}.

(** One step after the other: an exception ends the run. *)
Definition bind {A B} (r : result A) (k : A -> result B) : result B :=
  match r with
  | Done a => k a
  | Raised e s => Raised e s
  end.

Variable rt : runtime.

Fixpoint exec (st : stmt) (s : store) {struct st} : result store :=
  let block :=
    fix block (ss : list stmt) (s : store) {struct ss} : result store :=
      match ss with
      | [] => Done s
      | x :: rest => bind (exec x s) (block rest)
      end in
  match st with
  | Expr v =>
      bind (eval rt v s) (fun vs => Done (snd vs))
  | Assign t v =>
      bind (eval rt v s) (fun vs => assign rt t (fst vs) (snd vs))
  | Import _ _ | ImportFrom _ _ =>
      import_module rt st s
  | System c => Done (system rt c s)
  | For t it body =>
      bind (eval rt it s) (fun vs =>
      bind (iterate rt (fst vs) (snd vs)) (fun items =>
        (fix loop (items : list value) (s : store) {struct items} : result store :=
           match items with
           | [] => Done s
           | x :: rest =>
               bind (assign rt t x s) (fun s' => bind (block body s') (loop rest))
           end) items (snd vs)))
  | If test body orelse =>
      bind (eval rt test s) (fun vs =>
      bind (truth rt (fst vs) (snd vs)) (fun b =>
        if b then block body (snd vs) else block orelse (snd vs)))
  | Try body handlers =>
      match block body s with
      | Done s' => Done s'
      | Raised e s' =>
          (fix handle (hs : list (option expr * list stmt)) : result store :=
             match hs with
             | [] => Raised e s'
             | h :: rest =>
                 if matches rt (fst h) e s' then block (snd h) s'
                 else handle rest
             end) handlers
      end
  | Raise x =>
      bind (eval rt x s) (fun vs => Raised (as_exception rt (fst vs)) (snd vs))
  | Assert test =>
      bind (eval rt test s) (fun vs =>
      bind (truth rt (fst vs) (snd vs)) (fun b =>
        if b then Done (snd vs) else Raised (assertion_error rt) (snd vs)))
  | FunctionDef _ _ _ | AsyncFunctionDef _ _ _ | ClassDef _ _ =>
      Done (define rt st s)
  end.

(** The statements of a cell, one after the other, up to the first
    exception that is not caught. *)
Fixpoint exec_block (ss : list stmt) (s : store) {struct ss} : result store :=
  match ss with
  | [] => Done s
  | x :: rest => bind (exec x s) (exec_block rest)
  end.

(** One code cell, as IPython runs it.  A cell without a magic ends as
    its statements do.  Under [%%capture] the magic runs the body itself
    (with the shell's [run_cell]), which writes the traceback of an
    exception to the output being captured and returns; the magic does
    not look at the outcome and, given no variable to keep the output
    in, drops it: the cell ends normally, with the store as it was when
    the exception was raised.  [%%capture] is the one magic of the
    notebook; a cell with another is run here as a plain one. *)
Definition run_cell (c : option string * list stmt) (s : store) : result store :=
  match fst c with
  | Some "%%capture" =>
      match exec_block (snd c) s with
      | Done s' => Done s'
      | Raised _ s' => Done s'
      end
  | _ => exec_block (snd c) s
  end.

End Semantics.

Arguments Done {store exn A} a.
Arguments Raised {store exn A} e s.
Arguments runtime : clear implicits.

(** A run time under observation: the store carries the list of the
    exceptions the interpreter and the libraries have raised so far,
    oldest first.  The list is written here, by the run time, not by
    [exec]. *)
Definition observe {store exn A B} (seen : list exn) (f : A -> B)
  (r : @result store exn A) : @result (store * list exn) exn B :=
  match r with
  | Done a => Done (f a)
  | Raised e s => Raised e (s, seen ++ [e])
  end.

Definition monitored {store value exn} (rt : runtime store value exn)
  : runtime (store * list exn) value exn :=
  {| eval := fun e st =>
       observe (snd st) (fun vs => (fst vs, (snd vs, snd st))) (eval rt e (fst st));
     assign := fun t v st =>
       observe (snd st) (fun s => (s, snd st)) (assign rt t v (fst st));
     import_module := fun i st =>
       observe (snd st) (fun s => (s, snd st)) (import_module rt i (fst st));
     system := fun c st => (system rt c (fst st), snd st);
     iterate := fun v st =>
       observe (snd st) (fun items => items) (iterate rt v (fst st));
     truth := fun v st =>
       observe (snd st) (fun b => b) (truth rt v (fst st));
     define := fun d st => (define rt d (fst st), snd st);
     matches := fun h e st => matches rt h e (fst st);
     as_exception := as_exception rt;
     assertion_error := assertion_error rt |}.

(** The run without the observation. *)
Definition erase {store exn} (r : @result (store * list exn) exn (store * list exn))
  : @result store exn store :=
  match r with
  | Done st => Done (fst st)
  | Raised e st => Raised e (fst st)
  end.

(** A run that started with the exceptions [seen] raised handles none
    when it ends normally only if no other was raised, and ends with an
    exception only if that is the one other raised. *)
Definition unhandled {store exn} (seen : list exn)
  (r : @result (store * list exn) exn (store * list exn)) : Prop :=
  match r with
  | Done st => snd st = seen
  | Raised e st => snd st = seen ++ [e]
  end.

(** A run time in which the library raises when the name [f] is called
    and nothing else does. *)
Definition library_failure (f : string) : runtime unit unit string :=
  {| eval := fun e s =>
       match e with
       | Call (Name r) _ _ =>
           if String.eqb r f then Raised "error" s else Done (tt, s)
       | _ => Done (tt, s)
       end;
     assign := fun _ _ s => Done s;
     import_module := fun _ s => Done s;
     system := fun _ s => s;
     iterate := fun _ _ => Done [];
     truth := fun _ _ => Done true;
     define := fun _ s => s;
     matches := fun _ _ _ => true;
     as_exception := fun _ => "raised";
     assertion_error := "AssertionError" |}.

End Exec.

(* ================================================================== *)
(** * Binary64 arithmetic *)
(* ================================================================== *)

Module Float64.

(** Python's [float] is IEEE 754 binary64; its operations are those of
    the Standard Library's [SpecFloat] at precision 53. *)
Definition prec : Z := 53.
Definition emax : Z := 1024.

(** [float(n)] for a Python integer, as done before [.2 * n]: the nearest
    double, ties to even; [None] is the OverflowError of an integer too
    large for a double. *)
Definition of_int (n : Z) : option spec_float :=
  match binary_normalize prec emax n 0 false with
  | S754_infinity _ => None
  | x => Some x
  end.

(** The literal [.2]: the double nearest to 2/10. *)
Definition point_two : spec_float :=
  Eval vm_compute in
    SFdiv prec emax (binary_normalize prec emax 2 0 false)
                    (binary_normalize prec emax 10 0 false).

Definition mul : spec_float -> spec_float -> spec_float := SFmul prec emax.

(** [int(x)]: truncation towards zero; [None] is the error raised for an
    infinity or a NaN. *)
Definition to_int (x : spec_float) : option Z :=
  match x with
  | S754_zero _ => Some 0
  | S754_finite s m e =>
      Some (cond_Zopp s match e with
                        | Zneg p => Z.pos m / 2 ^ Z.pos p
                        | _ => Z.pos m * 2 ^ e
                        end)
  | S754_infinity _ | S754_nan => None
  end.

(** The real number a positive finite double stands for. *)
Definition F2R (m : positive) (e : Z) : R := (IZR (Z.pos m) * powerRZ 2 e)%R.

End Float64.

(* ================================================================== *)
(** * The splits and their markers *)
(* ================================================================== *)

Module Splits.

(** A row of [Y_df]: the long format of the notebook's data. *)
Record observation := {
  unique_id : string;
  ds : Z;
  y : spec_float
}.

Definition frame : Type := list observation.

(** [n_time = len(Y_df.ds.unique())] *)
Definition n_time (Y_df : frame) : Z :=
  Z.of_nat (length (remove_dups (map ds Y_df))).

(** [val_size = int(.2 * n_time)] *)
Definition val_size (n_time : Z) : option Z :=
  x ← Float64.of_int n_time;
  Float64.to_int (Float64.mul Float64.point_two x).

(** [test_size = int(.2 * n_time)] *)
Definition test_size (n_time : Z) : option Z :=
  x ← Float64.of_int n_time;
  Float64.to_int (Float64.mul Float64.point_two x).

(** A pandas Series: values under integer labels. *)
Definition series (A : Type) : Type := list (Z * A).

Definition labels {A} (s : series A) : list Z := map fst s.

(** The rows of a frame under the labels 0, 1, 2, ... that reading the
    data file gives them. *)
Definition labelled (Y_df : frame) : series observation :=
  zip (seqZ 0 (Z.of_nat (length Y_df))) Y_df.

(** [s[k]] for an integer [k]: the value under the label [k]; [None] is
    the KeyError of a label that is not there. *)
Definition getitem {A} (s : series A) (k : Z) : option A :=
  snd <$> List.find (fun p => Z.eqb (fst p) k) s.

(** [x_plot = pd.to_datetime(Y_df[Y_df.unique_id==u_id].ds)]: selecting
    rows keeps their labels. *)
Definition x_plot (Y_df : frame) (u_id : string) : series Z :=
  map (fun p => (fst p, ds (snd p)))
      (List.filter (fun p => String.eqb (unique_id (snd p)) u_id) (labelled Y_df)).

(** [x_val = x_plot[n_time - val_size - test_size]] *)
Definition x_val (x_plot : series Z) (n_time : Z) : option Z :=
  v ← val_size n_time;
  t ← test_size n_time;
  getitem x_plot (n_time - v - t).

(** [x_test = x_plot[n_time - test_size]] *)
Definition x_test (x_plot : series Z) (n_time : Z) : option Z :=
  t ← test_size n_time;
  getitem x_plot (n_time - t).

End Splits.

(* ================================================================== *)
(** * Parsing the cross-validation results *)
(* ================================================================== *)

Module Evaluate.

(** [horizon = 96] *)
Definition horizon : Z := 96.

(** A row of [fcst_df], the frame [cross_validation] returns. *)
Record forecast := {
  unique_id : string;
  ds : Z;
  cutoff : Z;
  AutoNHITS : spec_float;
  y : spec_float
}.

(** A numpy array: its shape and its elements in row-major order. *)
Record ndarray := {
  shape : list Z;
  data : list spec_float
}.

(** [column.values]: a one-dimensional array. *)
Definition values (column : list spec_float) : ndarray :=
  {| shape := [Z.of_nat (length column)]; data := column |}.

Definition size (a : ndarray) : Z := Z.of_nat (length (data a)).

(** The shape numpy's reshape settles on: at most one dimension may be
    negative and is inferred from the others; [None] is the ValueError
    of a shape that does not fit the size.  The product of the known
    dimensions is taken in [Z]; numpy takes it in signed 64-bit integers
    and refuses a product that does not fit, so the two agree for
    products below 2^63, as those of the dimensions of an array in
    memory are. *)
Definition fix_unknown_dimension (size : Z) (dims : list Z) : option (list Z) :=
  let known := fold_right Z.mul 1 (List.filter (fun d => Z.leb 0 d) dims) in
  match List.filter (fun d => Z.ltb d 0) dims with
  | [] => if Z.eqb size known then Some dims else None
  | [_] => if Z.eqb known 0 || negb (Z.eqb (size mod known) 0) then None
           else Some (map (fun d => if Z.ltb d 0 then size / known else d) dims)
  | _ => None
  end.

Definition reshape (a : ndarray) (newshape : list Z) : option ndarray :=
  sh ← fix_unknown_dimension (size a) newshape;
  Some {| shape := sh; data := data a |}.

(** [n_series = len(Y_df.unique_id.unique())] *)
Definition n_series (Y_df : Splits.frame) : Z :=
  Z.of_nat (length (remove_dups (map Splits.unique_id Y_df))).

(** [y_true = fcst_df.y.values] *)
Definition y_true (fcst_df : list forecast) : ndarray :=
  values (map y fcst_df).

(** [y_hat = fcst_df['AutoNHITS'].values] *)
Definition y_hat (fcst_df : list forecast) : ndarray :=
  values (map AutoNHITS fcst_df).

(** [a.reshape(n_series, -1, horizon)] *)
Definition parsed (a : ndarray) (n_series : Z) : option ndarray :=
  reshape a [n_series; -1; horizon].

(** An index into a dimension of length [dim]: a negative index counts
    from the end; [None] is the IndexError of an index out of bounds. *)
Definition normalize_index (dim i : Z) : option Z :=
  if Z.leb 0 i && Z.ltb i dim then Some i
  else if Z.leb (- dim) i && Z.ltb i 0 then Some (i + dim)
  else None.

Definition product (dims : list Z) : Z := fold_right Z.mul 1 dims.

(** [a[i, j, :]]: the block under the first two indices of an array of
    three dimensions or more; [None] is the IndexError of an index out
    of bounds or of an array of fewer dimensions. *)
Definition getitem_window (a : ndarray) (i j : Z) : option ndarray :=
  match shape a with
  | d0 :: d1 :: inner =>
      match inner with
      | [] => None
      | _ :: _ =>
          i' ← normalize_index d0 i;
          j' ← normalize_index d1 j;
          let block := product inner in
          Some {| shape := inner;
                  data := take (Z.to_nat block)
                               (drop (Z.to_nat ((i' * d1 + j') * block)) (data a)) |}
      end
  | _ => None
  end.

(** The windows the last plot draws: [series_idx = 3] and the windows
    200, 300 and 400 of the loop, of [y_true] and of [y_hat]. *)
Definition series_idx : Z := 3.
Definition plotted_windows : list Z := [200; 300; 400].

Definition plotted (a : ndarray) : option (list ndarray) :=
  mapM (getitem_window a series_idx) plotted_windows.

End Evaluate.

(* ================================================================== *)
(** * The shape of the notebook *)
(* ================================================================== *)

Section Shape.

Import Analysis.


(** C2, as stated, fails: the notebook makes calls that are none of the
    loader, the forecaster constructor, the cross-validation method and
    the loss functions, for one [tune.choice]. *)
Lemma interface_is_wider :
  ~ (forall c, List.In c (notebook_calls cells) ->
               is_Some (interface_role cells c)).
Proof.
  intros H.
  specialize (H (Name "tune", ["choice"])).
  assert (Hin : List.In (Name "tune", ["choice"]) (notebook_calls cells)).
  { vm_compute. do 25 right. left. reflexivity. }
  apply H in Hin. vm_compute in Hin. destruct Hin as [r Hr]. discriminate.
Qed.

(** C2, amended.  The notebook defines no function, class or lambda of
    its own, and the root of every call is imported, assigned or built
    in.  Its calls with a role in the interface are the loader, the
    forecaster constructor, the cross-validation method and the two loss
    functions; every other call is one of those listed. *)
Theorem delegation_to_libraries :
  own_logic cells = []
  /\ unresolved_calls cells = []
  /\ interface_calls cells
     = [ (Some ["LongHorizon"; "load"], DatasetLoader);
         (Some ["NeuralForecast"], ForecasterConstructor);
         (Some ["fcst"; "cross_validation"], CrossValidationMethod);
         (Some ["mae"], LossFunction);
         (Some ["mse"], LossFunction) ]
  /\ other_calls cells
     = [ ["logging"; "getLogger"]; ["logging"; "getLogger"; "setLevel"];
         ["torch"; "cuda"; "is_available"]; ["pd"; "to_datetime"]; ["len"];
         ["Y_df"; "ds"; "unique"]; ["int"]; ["Y_df"; "groupby"];
         ["Y_df"; "groupby"; "head"]; ["plt"; "figure"];
         ["fig"; "tight_layout"]; ["plt"; "plot"]; ["plt"; "xlabel"];
         ["plt"; "ylabel"]; ["plt"; "axvline"]; ["plt"; "text"];
         ["plt"; "grid"]; ["plt"; "show"]; ["plt"; "close"];
         ["Y_df"; "unique_id"; "unique"]; ["tune"; "choice"];
         ["tune"; "randint"]; ["AutoNHITS"];
         ["fcst"; "models"; "results"; "get_best_result"];
         ["y_true"; "reshape"]; ["y_hat"; "reshape"]; ["print"];
         ["plt"; "subplots"]; ["enumerate"]; ["axs"; "plot"];
         ["axs"; "grid"]; ["axs"; "set_ylabel"]; ["axs"; "set_xlabel"];
         ["plt"; "legend"] ].
Proof. repeat split; vm_compute; reflexivity. Qed.

(** C3, as stated, fails: not every access to [Y_df] is through a
    column.  The frame is passed as it is to [cross_validation], and
    [Y_df.groupby('unique_id').head(2)] shows whole rows. *)
Lemma Y_df_taken_whole :
  ~ Forall (fun a => is_whole a = false) (frame_accesses "Y_df" cells).
Proof.
  intros H. rewrite List.Forall_forall in H.
  specialize (H Whole). 
  assert (Hin : List.In Whole (frame_accesses "Y_df" cells)).
  { vm_compute. do 9 right. left. reflexivity. }
  apply H in Hin. discriminate.
Qed.

(** C3, amended.  The notebook names three columns of [Y_df] and no
    other: [unique_id], [ds] and [y].  Of
    its eleven accesses to the frame, nine read or write one of these
    columns, of the frame or of selected rows.  The other two take the
    frame whole: [groupby('unique_id').head(2)] shows whole rows of each
    series, and [cross_validation] is passed the frame as its argument
    [df]. *)
Theorem Y_df_columns :
  frame_accesses "Y_df" cells
    = [ Column "ds"; Column "ds"; Column "ds";
        GroupedRows ["unique_id"] "head";
        RowsColumn "ds"; Column "unique_id"; RowsColumn "y";
        Column "unique_id"; Column "unique_id"; Whole; Column "unique_id" ]
  /\ (forall c, List.In c (frame_columns "Y_df" cells)
                <-> List.In c ["unique_id"; "ds"; "y"])
  /\ List.filter is_whole (frame_accesses "Y_df" cells)
     = [GroupedRows ["unique_id"] "head"; Whole]
  /\ length (List.filter (fun a => negb (is_whole a)) (frame_accesses "Y_df" cells))
     = 9%nat
  /\ passed_whole "Y_df" cells = [(Some ["fcst"; "cross_validation"], "df")].
Proof.
  split; [vm_compute; reflexivity|].
  split; [|repeat split; vm_compute; reflexivity].
  intros c.
  change (frame_columns "Y_df" cells)
    with ["ds"; "ds"; "ds"; "unique_id"; "ds"; "unique_id"; "y"; "unique_id";
          "unique_id"; "unique_id"].
  cbn [List.In]. intuition.
Qed.

(** C5.  The notebook has 14 code cells, one short of 15, and 13 of
    them have code in them.  Their 67 statements make 63 calls, each of
    a dotted name, and define nothing of their own. *)
Theorem code_cell_count :
  length (code_cells cells) = 14%nat
  /\ Z.abs (Z.of_nat (length (code_cells cells)) - 15) <= 1
  /\ length (nonempty_code_cells cells) = 13%nat
  /\ length (statements cells) = 67%nat
  /\ length (notebook_calls cells) = 63%nat
  /\ length (omap dotted (notebook_calls cells)) = 63%nat
  /\ own_logic cells = [].
Proof. repeat split; vm_compute; congruence. Qed.

(** No statement is an [async def], awaits, or imports a module that
    starts threads or processes; the one shell command is the
    installation of the first code cell. *)
Lemma sequential_syntax :
  List.filter is_concurrent (statements cells) = []
  /\ shell_commands cells = ["pip install neuralforecast datasetsforecast"].
Proof. split; vm_compute; reflexivity. Qed.

Lemma fold_insert_lookup {A} (items : list (string * A)) :
  forall (m0 : gmap string A) k d,
    fold_left (fun m kd => <[fst kd := snd kd]> m) items m0 !! k = Some d ->
    List.In (k, d) items \/ m0 !! k = Some d.
Proof.
  induction items as [|[k' d'] items IH]; intros m0 k d H; cbn in *.
  - right. exact H.
  - apply IH in H. destruct H as [H | H]; [left; right; exact H|].
    apply lookup_insert_Some in H. destruct H as [[-> ->] | [_ H]].
    + left. left. reflexivity.
    + right. exact H.
Qed.

(** C6.  [nhits_config] is bound to a dictionary display of twelve
    items.  Every key is a string literal, no key occurs twice, and every
    value is a domain of [ray.tune]: eleven [tune.choice] and one
    [tune.randint], so the dictionary built maps each of the twelve
    hyperparameter names to a discrete domain. *)
Theorem nhits_config_domains :
  assigned_value cells "nhits_config" = Some nhits_config
  /\ exists items m,
       domain_items cells nhits_config = Some items
       /\ map fst items
          = ["learning_rate"; "max_steps"; "input_size"; "batch_size";
             "windows_batch_size"; "n_pool_kernel_size"; "n_freq_downsample";
             "activation"; "n_blocks"; "mlp_units"; "interpolation_mode";
             "random_seed"]
       /\ length (List.filter is_categorical (map snd items)) = 11%nat
       /\ length (List.filter is_integer_range (map snd items)) = 1%nat
       /\ search_space cells nhits_config = Some m
       /\ size m = 12%nat
       /\ forall k d, m !! k = Some d ->
                      List.In (k, d) items /\ is_discrete d = true.
Proof.
  split; [vm_compute; reflexivity|].
  destruct (domain_items cells nhits_config) as [items|] eqn:Hitems;
    [|vm_compute in Hitems; discriminate].
  exists items, (fold_left (fun m kd => <[fst kd := snd kd]> m) items ∅).
  assert (Hd : forallb (fun kd => is_discrete (snd kd)) items = true).
  { vm_compute in Hitems. injection Hitems as <-. vm_compute. reflexivity. }
  split; [reflexivity|].
  split; [vm_compute in Hitems; injection Hitems as <-; reflexivity|].
  split; [vm_compute in Hitems; injection Hitems as <-; reflexivity|].
  split; [vm_compute in Hitems; injection Hitems as <-; reflexivity|].
  split; [unfold search_space; rewrite Hitems; reflexivity|].
  split; [vm_compute in Hitems; injection Hitems as <-; vm_compute; reflexivity|].
  intros k d Hk. apply fold_insert_lookup in Hk.
  destruct Hk as [Hk | Hk]; [|rewrite lookup_empty in Hk; discriminate].
  split; [exact Hk|].
  rewrite forallb_forall in Hd. exact (Hd (k, d) Hk).
Qed.

End Shape.

(* ================================================================== *)
(** * Exceptions *)
(* ================================================================== *)

Section Propagation.

Import Analysis Exec.

Context {store value exn : Type}.
Variable rt : runtime store value exn.

Lemma unhandled_bind {A} (seen : list exn)
  (r : @result (store * list exn) exn A) (k : A -> @result (store * list exn) exn (store * list exn)) :
  match r with Done _ => True | Raised e st => snd st = seen ++ [e] end ->
  (forall a, r = Done a -> unhandled seen (k a)) ->
  unhandled seen (bind r k).
Proof.
  intros Hr Hk. destruct r as [a | e st]; cbn.
  - apply Hk. reflexivity.
  - exact Hr.
Qed.

Lemma observe_raised {A B} (seen : list exn) (f : A -> B) (r : @result store exn A) :
  match observe seen f r with
  | Done _ => True
  | Raised e st => snd st = seen ++ [e]
  end.
Proof. destruct r; cbn; [exact I | reflexivity]. Qed.

Lemma observe_done {A B} (seen : list exn) (f : A -> B) (r : @result store exn A) b :
  observe seen f r = Done b -> exists a, r = Done a /\ b = f a.
Proof. destruct r as [a | e s]; cbn; [intros [= <-]; eauto | discriminate]. Qed.

(** The blocks inside [exec] are run by [exec_block]. *)
Lemma exec_block_unhandled (ss : list stmt) :
  Forall (fun x => forall st, unhandled (snd st) (exec (monitored rt) x st)) ss ->
  forall st, unhandled (snd st) (exec_block (monitored rt) ss st).
Proof.
  induction 1 as [|x rest Hx _ IH]; intros st; cbn.
  - reflexivity.
  - specialize (Hx st). destruct (exec (monitored rt) x st) as [st' | e st']; cbn in *.
    + rewrite <- Hx. apply IH.
    + exact Hx.
Qed.

Lemma quiet_block (ss : list stmt) :
  Forall (fun x => handles_errors x = false) (flat_map flatten ss) ->
  Forall quiet ss.
Proof.
  induction ss as [|x rest IH]; cbn; intros H; [constructor|].
  apply Forall_app in H. destruct H as [H1 H2].
  constructor; [exact H1 | exact (IH H2)].
Qed.

Lemma Forall_impl2 {A} (P Q : A -> Prop) (l : list A) :
  Forall (fun x => P x -> Q x) l -> Forall P l -> Forall Q l.
Proof.
  induction 1 as [|x l Hx _ IH]; intros HP; [constructor|].
  apply List.Forall_cons_iff in HP. destruct HP as [HPx HPl].
  constructor; auto.
Qed.

(** A statement that neither catches nor raises nor asserts, however
    deep, handles no exception of the run time: it ends normally only if
    none was raised while it ran, and the one raised is its outcome. *)
Lemma exec_unhandled (st : stmt) :
  quiet st -> forall s, unhandled (snd s) (exec (monitored rt) st s).
Proof.
  induction st as
    [ v | t v | m a | m ns | c | t it body IH | test body orelse IHb IHo
    | body handlers _ _ | e | e | f ps body _ | f ps body _ | c body _ ]
    using stmt_induction; intros Hq s.
  - cbn. apply unhandled_bind; [apply observe_raised|].
    intros vs Hvs. apply observe_done in Hvs. destruct Hvs as (a & _ & ->). reflexivity.
  - cbn. apply unhandled_bind; [apply observe_raised|].
    intros vs Hvs. apply observe_done in Hvs. destruct Hvs as (a & _ & ->). cbn.
    destruct (assign rt t (fst a) (snd a)); reflexivity.
  - cbn. destruct (import_module rt (Import m a) (fst s)); reflexivity.
  - cbn. destruct (import_module rt (ImportFrom m ns) (fst s)); reflexivity.
  - reflexivity.
  - assert (Hbody : forall s', unhandled (snd s') (exec_block (monitored rt) body s')).
    { apply exec_block_unhandled.
      apply (Forall_impl2 quiet); [exact IH|].
      apply quiet_block. unfold quiet in Hq. cbn in Hq.
      apply List.Forall_cons_iff in Hq. tauto. }
    change (exec (monitored rt) (For t it body) s) with
      (bind (eval (monitored rt) it s) (fun vs =>
       bind (iterate (monitored rt) (fst vs) (snd vs)) (fun items =>
         (fix loop (items : list value) (s : store * list exn) {struct items}
            : @result (store * list exn) exn (store * list exn) :=
            match items with
            | [] => Done s
            | x :: rest =>
                bind (assign (monitored rt) t x s)
                     (fun s' => bind (exec_block (monitored rt) body s') (loop rest))
            end) items (snd vs)))).
    apply unhandled_bind; [apply observe_raised|].
    intros vs Hvs. apply observe_done in Hvs. destruct Hvs as (a & _ & ->). cbn [fst snd].
    apply unhandled_bind; [apply observe_raised|].
    intros items _.
    generalize (snd a). intros s0. generalize (snd s). intros seen.
    revert s0. induction items as [|i items IHi]; intros s0.
    + reflexivity.
    + cbn [monitored assign fst snd].
      destruct (assign rt t i s0) as [s1 | e1 s1]; cbn; [|reflexivity].
      specialize (Hbody (s1, seen)). cbn [snd] in Hbody.
      destruct (exec_block (monitored rt) body (s1, seen)) as [[s2 seen2] | e2 st2]; cbn in *.
      * subst seen2. apply IHi.
      * exact Hbody.
  - unfold quiet in Hq. cbn in Hq.
    apply List.Forall_cons_iff in Hq. destruct Hq as [_ Hq].
    apply Forall_app in Hq. destruct Hq as [Hq1 Hq2].
    change (exec (monitored rt) (If test body orelse) s) with
      (bind (eval (monitored rt) test s) (fun vs =>
       bind (truth (monitored rt) (fst vs) (snd vs)) (fun b =>
         if b then exec_block (monitored rt) body (snd vs)
         else exec_block (monitored rt) orelse (snd vs)))).
    apply unhandled_bind; [apply observe_raised|].
    intros vs Hvs. apply observe_done in Hvs. destruct Hvs as (a & _ & ->). cbn [fst snd].
    apply unhandled_bind; [apply observe_raised|].
    intros [|] _.
    + apply (exec_block_unhandled body
               (Forall_impl2 quiet _ body IHb (quiet_block body Hq1)) (snd a, snd s)).
    + apply (exec_block_unhandled orelse
               (Forall_impl2 quiet _ orelse IHo (quiet_block orelse Hq2)) (snd a, snd s)).
  - unfold quiet in Hq. cbn in Hq.
    apply List.Forall_cons_iff in Hq. destruct Hq as [Hq _]. discriminate.
  - unfold quiet in Hq. cbn in Hq.
    apply List.Forall_cons_iff in Hq. destruct Hq as [Hq _]. discriminate.
  - unfold quiet in Hq. cbn in Hq.
    apply List.Forall_cons_iff in Hq. destruct Hq as [Hq _]. discriminate.
  - reflexivity.
  - reflexivity.
  - reflexivity.
Qed.

(** The run under observation is the run: forgetting the list of
    exceptions gives back what the run time does unobserved. *)
Lemma erase_exec_block (ss : list stmt) :
  Forall (fun x => forall s seen,
            erase (exec (monitored rt) x (s, seen)) = exec rt x s) ss ->
  forall s seen, erase (exec_block (monitored rt) ss (s, seen)) = exec_block rt ss s.
Proof.
  induction 1 as [|x rest Hx _ IH]; intros s seen; cbn.
  - reflexivity.
  - specialize (Hx s seen).
    destruct (exec (monitored rt) x (s, seen)) as [[s1 seen1] | e1 [s1 seen1]];
      cbn in Hx; rewrite <- Hx; cbn.
    + apply IH.
    + reflexivity.
Qed.

Lemma erase_exec (st : stmt) :
  forall s seen, erase (exec (monitored rt) st (s, seen)) = exec rt st s.
Proof.
  induction st as
    [ v | t v | m a | m ns | c | t it body IH | test body orelse IHb IHo
    | body handlers IHb IHh | e | e | f ps body _ | f ps body _ | c body _ ]
    using stmt_induction; intros s seen.
  - cbn. destruct (eval rt v s) as [[x s1] | e1 s1]; reflexivity.
  - cbn. destruct (eval rt v s) as [[x s1] | e1 s1]; cbn; [|reflexivity].
    destruct (assign rt t x s1); reflexivity.
  - cbn. destruct (import_module rt (Import m a) s); reflexivity.
  - cbn. destruct (import_module rt (ImportFrom m ns) s); reflexivity.
  - reflexivity.
  - pose proof (erase_exec_block body IH) as Hbody.
    change (exec (monitored rt) (For t it body) (s, seen)) with
      (bind (eval (monitored rt) it (s, seen)) (fun vs =>
       bind (iterate (monitored rt) (fst vs) (snd vs)) (fun items =>
         (fix loop (items : list value) (s : store * list exn) {struct items}
            : @result (store * list exn) exn (store * list exn) :=
            match items with
            | [] => Done s
            | x :: rest =>
                bind (assign (monitored rt) t x s)
                     (fun s' => bind (exec_block (monitored rt) body s') (loop rest))
            end) items (snd vs)))).
    change (exec rt (For t it body) s) with
      (bind (eval rt it s) (fun vs =>
       bind (iterate rt (fst vs) (snd vs)) (fun items =>
         (fix loop (items : list value) (s : store) {struct items}
            : @result store exn store :=
            match items with
            | [] => Done s
            | x :: rest =>
                bind (assign rt t x s)
                     (fun s' => bind (exec_block rt body s') (loop rest))
            end) items (snd vs)))).
    cbn [monitored eval iterate fst snd].
    destruct (eval rt it s) as [[x s1] | e1 s1]; cbn; [|reflexivity].
    destruct (iterate rt x s1) as [items | e2 s2]; cbn; [|reflexivity].
    revert s1 seen. induction items as [|i items IHi]; intros s1 seen; [reflexivity|].
    cbn. destruct (assign rt t i s1) as [s2 | e2 s2]; cbn; [|reflexivity].
    specialize (Hbody s2 seen).
    destruct (exec_block (monitored rt) body (s2, seen)) as [[s3 seen3] | e3 [s3 seen3]];
      cbn in Hbody; rewrite <- Hbody; cbn.
    + apply IHi.
    + reflexivity.
  - pose proof (erase_exec_block body IHb) as Hbody.
    pose proof (erase_exec_block orelse IHo) as Horelse.
    change (exec (monitored rt) (If test body orelse) (s, seen)) with
      (bind (eval (monitored rt) test (s, seen)) (fun vs =>
       bind (truth (monitored rt) (fst vs) (snd vs)) (fun b =>
         if b then exec_block (monitored rt) body (snd vs)
         else exec_block (monitored rt) orelse (snd vs)))).
    change (exec rt (If test body orelse) s) with
      (bind (eval rt test s) (fun vs =>
       bind (truth rt (fst vs) (snd vs)) (fun b =>
         if b then exec_block rt body (snd vs) else exec_block rt orelse (snd vs)))).
    cbn [monitored eval truth fst snd].
    destruct (eval rt test s) as [[x s1] | e1 s1]; cbn; [|reflexivity].
    destruct (truth rt x s1) as [[|] | e2 s2]; cbn;
      [apply Hbody | apply Horelse | reflexivity].
  - pose proof (erase_exec_block body IHb) as Hbody.
    change (exec (monitored rt) (Try body handlers) (s, seen)) with
      (match exec_block (monitored rt) body (s, seen) with
       | Done s' => Done s'
       | Raised e s' =>
           (fix handle (hs : list (option expr * list stmt))
              : @result (store * list exn) exn (store * list exn) :=
              match hs with
              | [] => Raised e s'
              | h :: rest =>
                  if matches (monitored rt) (fst h) e s'
                  then exec_block (monitored rt) (snd h) s'
                  else handle rest
              end) handlers
       end).
    change (exec rt (Try body handlers) s) with
      (match exec_block rt body s with
       | Done s' => Done s'
       | Raised e s' =>
           (fix handle (hs : list (option expr * list stmt)) : @result store exn store :=
              match hs with
              | [] => Raised e s'
              | h :: rest =>
                  if matches rt (fst h) e s' then exec_block rt (snd h) s'
                  else handle rest
              end) handlers
       end).
    specialize (Hbody s seen).
    destruct (exec_block (monitored rt) body (s, seen)) as [[s1 seen1] | e1 [s1 seen1]];
      cbn in Hbody; rewrite <- Hbody; [reflexivity|].
    induction IHh as [|h rest Hh _ IHrest]; [reflexivity|].
    cbn [monitored matches fst snd].
    destruct (matches rt (fst h) e1 s1).
    + apply (erase_exec_block (snd h) Hh).
    + exact IHrest.
  - cbn. destruct (eval rt e s) as [[x s1] | e1 s1]; reflexivity.
  - cbn. destruct (eval rt e s) as [[x s1] | e1 s1]; cbn; [|reflexivity].
    destruct (truth rt x s1) as [[|] | e2 s2]; reflexivity.
  - reflexivity.
  - reflexivity.
  - reflexivity.
Qed.

Lemma filter_nil_Forall {A} (f : A -> bool) (l : list A) :
  List.filter f l = [] -> Forall (fun x => f x = false) l.
Proof.
  induction l as [|x l IH]; cbn; intros H; [constructor|].
  destruct (f x) eqn:Hx; [discriminate|].
  constructor; [exact Hx | exact (IH H)].
Qed.

Lemma cell_unhandled (nb : notebook) (magic : option string) (source : list stmt) :
  error_handling nb = [] ->
  List.In (magic, source) (code_cells nb) ->
  forall st, unhandled (snd st) (exec_block (monitored rt) source st).
Proof.
  intros Hnone Hin. apply exec_block_unhandled.
  apply filter_nil_Forall in Hnone. unfold statements in Hnone.
  rewrite List.Forall_forall in Hnone.
  assert (Hq : Forall quiet source).
  { apply quiet_block. rewrite List.Forall_forall. intros x Hx.
    apply Hnone. apply in_flat_map. exists (magic, source). split; [exact Hin | exact Hx]. }
  apply (Forall_impl2 quiet); [|exact Hq].
  rewrite List.Forall_forall. intros x _. apply exec_unhandled.
Qed.

(** The statement at which the run time first raises ends the block with
    that exception; what comes after it is not run. *)
Lemma first_exception (before after : list stmt) (st : stmt) (s s1 s2 : store) (e : exn) :
  exec_block rt before s = Done s1 ->
  exec rt st s1 = Raised e s2 ->
  exec_block rt (before ++ st :: after) s = Raised e s2.
Proof.
  revert s. induction before as [|x before IH]; intros s Hb Hst; cbn in *.
  - injection Hb as ->. rewrite Hst. reflexivity.
  - destruct (exec rt x s) as [s' | e' s']; cbn in *; [|discriminate].
    apply IH; assumption.
Qed.

(** An expression or an assignment raises what the evaluation of its
    expression raises. *)
Lemma evaluation_raises (v : expr) (s s' : store) (e : exn) :
  eval rt v s = Raised e s' ->
  exec rt (Expr v) s = Raised e s'
  /\ forall t, exec rt (Assign t v) s = Raised e s'.
Proof. intros H. cbn. rewrite H. split; reflexivity. Qed.

End Propagation.

(** A [try] that catches is what the property excludes: with a library
    that raises when [f] is called, the statement ends normally although
    an exception was raised. *)
Lemma caught_is_handled :
  let st := Try [Expr (Call (Name "f") [] [])] [(None, [])] in
  Exec.exec (Exec.monitored (Exec.library_failure "f")) st (tt, [])
    = Exec.Done (tt, ["error"])
  /\ ~ Exec.unhandled [] (Exec.exec (Exec.monitored (Exec.library_failure "f")) st (tt, [])).
Proof. split; [reflexivity | cbn; discriminate]. Qed.

(** C4, as stated, fails: an exception that the code of a cell raises
    need not leave the cell.  The cell that constructs the forecaster and
    cross-validates is run under [%%capture]: when the call of
    [NeuralForecast] raises, the code of the cell ends with the
    exception and the cell ends normally. *)
Lemma capture_hides_exception :
  ~ (forall (rt : Exec.runtime unit unit string) c s e s',
       List.In c (Analysis.code_cells cells) ->
       Exec.exec_block rt (snd c) s = Exec.Raised e s' ->
       Exec.run_cell rt c s = Exec.Raised e s').
Proof.
  intros H.
  specialize (H (Exec.library_failure "NeuralForecast")
                (nth 8 (Analysis.code_cells cells) (None, [])) tt "error" tt).
  assert (Hin : List.In (nth 8 (Analysis.code_cells cells) (None, []))
                        (Analysis.code_cells cells)).
  { vm_compute. do 8 right. left. reflexivity. }
  specialize (H Hin eq_refl). vm_compute in H. discriminate.
Qed.

(** C4, amended.  No statement of the notebook is a [try], a [raise] or
    an [assert], and its one conditional tests the loop index
    [idx == 2], not an error.  So whatever the interpreter and the
    libraries do, the code of a cell handles no exception: it ends
    normally only if none was raised, the one raised is its outcome, and
    the statement whose expression raises is the last one run.  A cell without
    a magic ends as its code does, so the exception leaves the cell.  The
    two cells under [%%capture], the installation and the fit, end
    normally whatever their code raised. *)
Theorem no_error_handling :
  Analysis.error_handling cells = []
  /\ Analysis.branch_tests cells = [Compare (Name "idx") Eq (Int 2)]
  /\ map fst (Analysis.code_cells cells)
     = [ Some "%%capture"; None; None; None; None; None; None; None;
         Some "%%capture"; None; None; None; None; None ]
  /\ forall (store value exn : Type) (rt : Exec.runtime store value exn),
       Forall (fun c =>
         (forall s seen,
            Exec.unhandled seen (Exec.exec_block (Exec.monitored rt) (snd c) (s, seen))
            /\ Exec.erase (Exec.exec_block (Exec.monitored rt) (snd c) (s, seen))
               = Exec.exec_block rt (snd c) s)
         /\ (forall before st after v s s1 e s2,
               snd c = before ++ st :: after ->
               st = Expr v \/ (exists t, st = Assign t v) ->
               Exec.exec_block rt before s = Exec.Done s1 ->
               Exec.eval rt v s1 = Exec.Raised e s2 ->
               Exec.exec_block rt (snd c) s = Exec.Raised e s2)
         /\ (fst c = None ->
             forall s, Exec.run_cell rt c s = Exec.exec_block rt (snd c) s)
         /\ (fst c = Some "%%capture" ->
             forall s, exists s', Exec.run_cell rt c s = Exec.Done s'))
       (Analysis.code_cells cells).
Proof.
  split; [vm_compute; reflexivity|].
  split; [vm_compute; reflexivity|].
  split; [vm_compute; reflexivity|].
  intros store value exn rt. rewrite List.Forall_forall. intros [magic source] Hin.
  cbn [fst snd]. split; [|split; [|split]].
  - intros s seen. split.
    + apply (cell_unhandled rt cells magic source (eq_refl : Analysis.error_handling cells = [])
               Hin (s, seen)).
    + apply erase_exec_block. rewrite List.Forall_forall. intros x _. apply erase_exec.
  - intros before st after v s s1 e s2 -> Hst Hb Hv.
    apply (first_exception rt before after st s s1 s2 e Hb).
    destruct (evaluation_raises rt v s1 s2 e Hv) as [HE HA].
    destruct Hst as [-> | [t ->]]; [exact HE | apply HA].
  - intros -> s. reflexivity.
  - intros -> s. unfold Exec.run_cell. cbn [fst snd].
    destruct (Exec.exec_block rt source s) as [s' | e s']; eexists; reflexivity.
Qed.

(* ================================================================== *)
(** * Rounding to binary64 *)
(* ================================================================== *)

Section Rounding.

Import Float64.

Lemma digits2_pos_bounds (p : positive) :
  2 ^ (Z.pos (digits2_pos p) - 1) <= Z.pos p < 2 ^ Z.pos (digits2_pos p).
Proof.
  induction p as [p IH | p IH |]; cbn [digits2_pos].
  - rewrite Pos2Z.inj_succ, Z.pow_succ_r by lia.
    replace (Z.succ (Z.pos (digits2_pos p)) - 1) with (Z.succ (Z.pos (digits2_pos p) - 1)) by lia.
    rewrite Z.pow_succ_r by lia. lia.
  - rewrite Pos2Z.inj_succ, Z.pow_succ_r by lia.
    replace (Z.succ (Z.pos (digits2_pos p)) - 1) with (Z.succ (Z.pos (digits2_pos p) - 1)) by lia.
    rewrite Z.pow_succ_r by lia. lia.
  - cbn. lia.
Qed.

Lemma digits2_unique (m d : Z) :
  2 ^ (d - 1) <= m < 2 ^ d -> 0 < d -> Zdigits2 m = d.
Proof.
  intros Hm Hd.
  assert (0 < m) by (pose proof (Z.pow_pos_nonneg 2 (d - 1)); lia).
  destruct m as [|p|p]; try lia. cbn [Zdigits2].
  pose proof (digits2_pos_bounds p) as Hp.
  set (d' := Z.pos (digits2_pos p)) in *.
  assert (d' - 1 < d) by (apply (Z.pow_lt_mono_r_iff 2); lia).
  assert (d - 1 < d') by (apply (Z.pow_lt_mono_r_iff 2); lia).
  lia.
Qed.

Lemma shr_1_m (mrs : shr_record) :
  0 <= shr_m mrs -> shr_m (shr_1 mrs) = shr_m mrs / 2.
Proof.
  destruct mrs as [m r s]; cbn [shr_m]. intros Hm.
  rewrite <- Z.div2_div.
  destruct m as [|p|p]; [reflexivity| |lia].
  destruct p; reflexivity.
Qed.

Lemma iter_shr_1_m (p : positive) : forall mrs,
  0 <= shr_m mrs -> shr_m (SpecFloat.iter_pos shr_1 p mrs) = shr_m mrs / 2 ^ Z.pos p.
Proof.
  induction p as [p IH | p IH |]; intros mrs Hm; cbn [SpecFloat.iter_pos].
  - assert (H1 : 0 <= shr_m (shr_1 mrs)) by (rewrite shr_1_m by easy; apply Z.div_pos; lia).
    assert (H2 : 0 <= shr_m (SpecFloat.iter_pos shr_1 p (shr_1 mrs)))
      by (rewrite IH by easy; apply Z.div_pos; lia).
    rewrite IH, IH, shr_1_m by easy.
    rewrite !Z.div_div by lia. f_equal.
    rewrite Pos2Z.inj_xI, <- Z.pow_add_r, <- (Z.pow_1_r 2) at 1 by lia.
    rewrite <- Z.pow_add_r by lia. f_equal. lia.
  - assert (H2 : 0 <= shr_m (SpecFloat.iter_pos shr_1 p mrs))
      by (rewrite IH by easy; apply Z.div_pos; lia).
    rewrite IH, IH by easy.
    rewrite !Z.div_div by lia. f_equal.
    rewrite Pos2Z.inj_xO, <- Z.pow_add_r by lia. f_equal. lia.
  - rewrite shr_1_m by easy. reflexivity.
Qed.

Lemma shr_m_shift (m e k : Z) :
  0 <= m -> 0 <= k ->
  let '(mrs, e') := shr (shr_record_of_loc m loc_Exact) e k in
  shr_m mrs = m / 2 ^ k /\ e' = e + k.
Proof.
  intros Hm Hk. destruct k as [|p|p]; [| |lia]; cbn [shr shr_record_of_loc].
  - cbn [shr_m]. rewrite Z.div_1_r. lia.
  - rewrite iter_shr_1_m by (cbn; lia). cbn [shr_m]. lia.
Qed.

Lemma round_nearest_even_bounds (m : Z) (l : location) :
  m <= round_nearest_even m l <= m + 1.
Proof.
  destruct l as [|[| |]]; cbn [round_nearest_even]; try lia.
  destruct (Z.even m); lia.
Qed.

(** One rounding of a positive number [m * 2^e] of at least 53 digits,
    above the subnormal range: the mantissa [m] is shifted right to 53
    digits and rounded, which moves the value by less than the weight of
    the last digit kept; the result overflows when its exponent passes
    971. *)
Lemma binary_round_aux_normal (s : bool) (m : positive) (e : Z) :
  let d := Z.pos (digits2_pos m) in
  53 <= d -> -1074 <= d + e - 53 ->
  exists M E,
    binary_round_aux prec emax s (Z.pos m) e loc_Exact
      = (if Z.leb E 971 then S754_finite s M E else S754_infinity s) /\
    2 ^ 52 <= Z.pos M < 2 ^ 53 /\
    e + d - 53 <= E <= e + d - 52 /\
    Z.abs (Z.pos M * 2 ^ (E - e) - Z.pos m) <= 2 ^ (d - 53).
Proof.
  intros d Hd Hlo.
  pose proof (digits2_pos_bounds m) as Hm. fold d in Hm.
  set (k := d - 53) in *.
  assert (Hk : 0 <= k) by lia.
  assert (H2k : 0 < 2 ^ k) by (apply Z.pow_pos_nonneg; lia).
  assert (Hlow : 2 ^ (d - 1) = 2 ^ 52 * 2 ^ k)
    by (rewrite <- Z.pow_add_r by lia; f_equal; lia).
  assert (Hupp : 2 ^ d = 2 ^ 53 * 2 ^ k)
    by (rewrite <- Z.pow_add_r by lia; f_equal; lia).
  set (q := Z.pos m / 2 ^ k).
  assert (Hq : 2 ^ 52 <= q < 2 ^ 53).
  { split.
    - apply Z.div_le_lower_bound; lia.
    - apply Z.div_lt_upper_bound; lia. }
  pose proof (Z.mul_div_le (Z.pos m) (2 ^ k) H2k) as Hql.
  pose proof (Z.mul_succ_div_gt (Z.pos m) (2 ^ k) H2k) as Hqu.
  fold q in Hql, Hqu.
  unfold binary_round_aux, shr_fexp. cbn [Zdigits2]. fold d.
  replace (fexp prec emax (d + e) - e) with k
    by (unfold fexp, emin, prec, emax, k; lia).
  pose proof (shr_m_shift (Z.pos m) e k ltac:(lia) Hk) as Hs.
  destruct (shr (shr_record_of_loc (Z.pos m) loc_Exact) e k) as [mrs' e'].
  destruct Hs as [Hs He']. fold q in Hs. rewrite Hs.
  pose proof (round_nearest_even_bounds q (loc_of_shr_record mrs')) as Hr.
  set (m' := round_nearest_even q (loc_of_shr_record mrs')) in *.
  destruct (Z.eq_dec m' (2 ^ 53)) as [Hc | Hc].
  - (* the rounded mantissa carried into a 54th bit *)
    rewrite Hc.
    replace (Zdigits2 (2 ^ 53)) with 54 by (vm_compute; reflexivity).
    replace (fexp prec emax (54 + e') - e') with 1
      by (unfold fexp, emin, prec, emax; lia).
    cbn [shr shr_record_of_loc SpecFloat.iter_pos].
    change (shr_m (shr_1 {| shr_m := 2 ^ 53; shr_r := false; shr_s := false |}))
      with (Z.pos (2 ^ 52)).
    cbv iota beta.
    exists (2 ^ 52)%positive, (e' + 1).
    split; [reflexivity|]. repeat split; try lia.
    change (Z.pos (2 ^ 52)) with (2 ^ 52).
    replace (e' + 1 - e) with (1 + k) by lia.
    rewrite Z.pow_add_r by lia.
    replace (2 ^ 52 * (2 ^ 1 * 2 ^ k)) with (m' * 2 ^ k) by (rewrite Hc; lia).
    fold k. nia.
  - assert (Hm' : 2 ^ 52 <= m' < 2 ^ 53) by lia.
    rewrite (digits2_unique m' 53) by (change (53 - 1) with 52; lia).
    replace (fexp prec emax (53 + e') - e') with 0
      by (unfold fexp, emin, prec, emax; lia).
    cbn [shr shr_record_of_loc shr_m].
    destruct m' as [|M|M] eqn:EM; [lia| |lia].
    exists M, e'.
    split; [reflexivity|]. repeat split; try lia.
    replace (e' - e) with k by lia. fold k. nia.
Qed.

Lemma pos_iter_xO (m p : positive) :
  Z.pos (Pos.iter xO m p) = Z.pos m * 2 ^ Z.pos p.
Proof.
  induction p as [|p IH] using Pos.peano_ind.
  - cbn. lia.
  - rewrite Pos.iter_succ, Pos2Z.inj_xO, IH, Pos2Z.inj_succ, Z.pow_succ_r by lia. lia.
Qed.

Lemma IZR_pow2 (j : Z) : 0 <= j -> IZR (2 ^ j) = powerRZ 2 j.
Proof.
  intros Hj. destruct j as [|p|p]; [reflexivity| |lia].
  apply Zpower_pos_powerRZ.
Qed.

Lemma R2_neq_0 : (2 <> 0)%R.
Proof. apply Rgt_not_eq. lra. Qed.

Lemma F2R_pos m e : (0 < F2R m e)%R.
Proof.
  unfold F2R. apply Rmult_lt_0_compat.
  - apply IZR_lt. lia.
  - apply powerRZ_lt. lra.
Qed.

Lemma F2R_shift (m M : positive) (e E : Z) (a b : Z) :
  e <= E ->
  a * Z.pos m <= b * (Z.pos M * 2 ^ (E - e)) ->
  (IZR a * F2R m e <= IZR b * F2R M E)%R.
Proof.
  intros HE H. unfold F2R.
  replace E with ((E - e) + e) at 1 by lia.
  rewrite powerRZ_add by exact R2_neq_0.
  rewrite <- (IZR_pow2 (E - e)) by lia.
  apply IZR_le in H. rewrite !mult_IZR in H.
  pose proof (powerRZ_lt 2 e ltac:(lra)) as Hp.
  rewrite <- !Rmult_assoc.
  apply Rmult_le_compat_r; [lra|].
  rewrite Rmult_assoc. exact H.
Qed.

Lemma F2R_shift' (m M : positive) (e E : Z) (a b : Z) :
  e <= E ->
  b * (Z.pos M * 2 ^ (E - e)) <= a * Z.pos m ->
  (IZR b * F2R M E <= IZR a * F2R m e)%R.
Proof.
  intros HE H. unfold F2R.
  replace E with ((E - e) + e) at 1 by lia.
  rewrite powerRZ_add by exact R2_neq_0.
  rewrite <- (IZR_pow2 (E - e)) by lia.
  apply IZR_le in H. rewrite !mult_IZR in H.
  pose proof (powerRZ_lt 2 e ltac:(lra)) as Hp.
  rewrite <- !Rmult_assoc.
  apply Rmult_le_compat_r; [lra|].
  rewrite Rmult_assoc. exact H.
Qed.

(** Relative accuracy of one rounding: the result is within 2^-52 of the
    exact value. *)
Lemma binary_round_aux_accurate (s : bool) (m : positive) (e : Z) :
  let d := Z.pos (digits2_pos m) in
  53 <= d -> -1074 <= d + e - 53 ->
  exists M E,
    binary_round_aux prec emax s (Z.pos m) e loc_Exact
      = (if Z.leb E 971 then S754_finite s M E else S754_infinity s) /\
    2 ^ 52 <= Z.pos M < 2 ^ 53 /\
    e + d - 53 <= E <= e + d - 52 /\
    (4503599627370495 * F2R m e <= 4503599627370496 * F2R M E
       <= 4503599627370497 * F2R m e)%R.
Proof.
  intros d Hd Hlo.
  destruct (binary_round_aux_normal s m e Hd Hlo) as (M & E & Hr & HM & HE & Herr).
  fold d in HE, Herr.
  exists M, E. repeat split; try assumption; try lia.
  - pose proof (digits2_pos_bounds m) as Hm. fold d in Hm.
    assert (Hlow : 2 ^ (d - 1) = 2 ^ 52 * 2 ^ (d - 53))
      by (rewrite <- Z.pow_add_r by lia; f_equal; lia).
    apply (F2R_shift m M e E 4503599627370495 4503599627370496); lia.
  - pose proof (digits2_pos_bounds m) as Hm. fold d in Hm.
    assert (Hlow : 2 ^ (d - 1) = 2 ^ 52 * 2 ^ (d - 53))
      by (rewrite <- Z.pow_add_r by lia; f_equal; lia).
    apply (F2R_shift' m M e E 4503599627370497 4503599627370496); lia.
Qed.


Lemma pow2_lt_inv (a b : Z) : 0 <= b -> 2 ^ a < 2 ^ b -> a < b.
Proof. intros Hb H. apply (Z.pow_lt_mono_r_iff 2); lia. Qed.

(** [float(n)] of a positive integer: a normal double within 2^-52 of
    [n], or the overflow of an integer of 1024 bits or more. *)
Lemma of_int_accurate (n : positive) :
  (exists M E,
     of_int (Z.pos n) = Some (S754_finite false M E) /\
     2 ^ 52 <= Z.pos M < 2 ^ 53 /\
     -52 <= E <= 971 /\
     (4503599627370495 * IZR (Z.pos n) <= 4503599627370496 * F2R M E
        <= 4503599627370497 * IZR (Z.pos n))%R)
  \/ (of_int (Z.pos n) = None /\ 2 ^ 1023 <= Z.pos n).
Proof.
  pose proof (digits2_pos_bounds n) as Hn.
  set (d := Z.pos (digits2_pos n)) in *.
  assert (Hd : 1 <= d) by (unfold d; lia).
  unfold of_int, binary_normalize, binary_round. fold d.
  replace (fexp prec emax (d + 0)) with (d - 53)
    by (unfold fexp, emin, prec, emax; lia).
  assert (Hcase :
    exists mz ez,
      shl_align n 0 (d - 53) = (mz, ez) /\
      53 <= Z.pos (digits2_pos mz) /\
      Z.pos (digits2_pos mz) + ez = d /\ - 52 <= ez /\
      F2R mz ez = IZR (Z.pos n)).
  { unfold shl_align. destruct (d - 53 - 0) as [|p|p] eqn:Hp.
    - exists n, 0. fold d. repeat split; try lia.
      unfold F2R. cbn [powerRZ]. lra.
    - exists n, 0. fold d. repeat split; try lia.
      unfold F2R. cbn [powerRZ]. lra.
    - exists (Pos.iter xO n p), (d - 53).
      assert (Hmz : Z.pos (Pos.iter xO n p) = Z.pos n * 2 ^ Z.pos p)
        by apply pos_iter_xO.
      assert (Hpp : Z.pos p = 53 - d) by lia.
      assert (H2p : 0 < 2 ^ Z.pos p) by (apply Z.pow_pos_nonneg; lia).
      assert (H52 : 2 ^ 52 = 2 ^ (d - 1) * 2 ^ Z.pos p)
        by (rewrite <- Z.pow_add_r by lia; f_equal; lia).
      assert (H53 : 2 ^ 53 = 2 ^ d * 2 ^ Z.pos p)
        by (rewrite <- Z.pow_add_r by lia; f_equal; lia).
      assert (Hdz : Zdigits2 (Z.pos (Pos.iter xO n p)) = 53).
      { apply digits2_unique; [|lia]. change (53 - 1) with 52.
        rewrite Hmz, H52, H53. split.
        - apply Z.mul_le_mono_nonneg_r; lia.
        - apply Z.mul_lt_mono_pos_r; lia. }
      cbn [Zdigits2] in Hdz.
      split; [reflexivity|]. rewrite Hdz. repeat split; try lia.
      unfold F2R. rewrite Hmz, mult_IZR, IZR_pow2 by lia.
      rewrite Rmult_assoc, <- powerRZ_add by exact R2_neq_0.
      replace (Z.pos p + (d - 53)) with 0 by lia. cbn [powerRZ]. lra. }
  destruct Hcase as (mz & ez & -> & Hdz & Hsum & Hez & Hval).
  destruct (binary_round_aux_accurate false mz ez Hdz ltac:(lia))
    as (M & E & Hr & HM & HE & Hacc).
  rewrite Hr, Hval in *.
  destruct (Z.leb E 971) eqn:HE971.
  - left. exists M, E. apply Z.leb_le in HE971.
    repeat split; try assumption; try lia; apply Hacc.
  - right. apply Z.leb_gt in HE971. split; [reflexivity|].
    assert (1024 <= d) by lia.
    apply Z.le_trans with (2 ^ (d - 1)); [|lia].
    apply Z.pow_le_mono_r; lia.
Qed.

(** [.2 * x] for a normal double [x] of the range of [of_int]: within
    2^-52 of the product of [x] with the double that [.2] stands for. *)
Lemma mul_point_two_accurate (M1 : positive) (E1 : Z) :
  2 ^ 52 <= Z.pos M1 < 2 ^ 53 -> -52 <= E1 <= 971 ->
  exists M E X,
    mul point_two (S754_finite false M1 E1) = S754_finite false M E /\
    (36028797018963968 * X = 7205759403792794 * F2R M1 E1)%R /\
    (4503599627370495 * X <= 4503599627370496 * F2R M E
       <= 4503599627370497 * X)%R.
Proof.
  intros HM1 HE1.
  unfold mul, point_two, SFmul. cbn [xorb].
  set (m := (7205759403792794 * M1)%positive).
  assert (Hm : Z.pos m = 7205759403792794 * Z.pos M1) by reflexivity.
  pose proof (digits2_pos_bounds m) as Hd.
  set (d := Z.pos (digits2_pos m)) in *.
  assert (Hlo : 2 ^ 104 <= Z.pos m) by (rewrite Hm; lia).
  assert (Hhi : Z.pos m < 2 ^ 106) by (rewrite Hm; lia).
  assert (Hd1 : 104 < d) by (apply pow2_lt_inv; lia).
  assert (Hd2 : d - 1 < 106) by (apply pow2_lt_inv; lia).
  destruct (binary_round_aux_accurate false m (-55 + E1)) as (M & E & Hr & HM & HE & Hacc);
    fold d; try lia.
  fold d in HE.
  replace (Z.leb E 971) with true in Hr by (symmetry; apply Z.leb_le; lia).
  exists M, E, (F2R m (-55 + E1)).
  split; [exact Hr|]. split; [|exact Hacc].
  unfold F2R. rewrite Hm, mult_IZR, powerRZ_add by exact R2_neq_0.
  replace (powerRZ 2 (-55)) with (/ 36028797018963968)%R; [field|].
  change (-55) with (- (55)).
  rewrite powerRZ_neg' by exact R2_neq_0. f_equal.
  rewrite <- IZR_pow2 by lia. reflexivity.
Qed.

(** [int(x)] of a positive double: the integer part. *)
Lemma to_int_floor (M : positive) (E : Z) :
  exists t,
    to_int (S754_finite false M E) = Some t /\
    (IZR t <= F2R M E < IZR t + 1)%R.
Proof.
  unfold to_int, cond_Zopp, F2R.
  destruct E as [|p|p].
  - exists (Z.pos M * 2 ^ 0). split; [reflexivity|].
    rewrite Z.pow_0_r, Z.mul_1_r. cbn [powerRZ]. lra.
  - exists (Z.pos M * 2 ^ Z.pos p). split; [reflexivity|].
    rewrite mult_IZR, IZR_pow2 by lia. lra.
  - exists (Z.pos M / 2 ^ Z.pos p). split; [reflexivity|].
    assert (H2p : 0 < 2 ^ Z.pos p) by (apply Z.pow_pos_nonneg; lia).
    pose proof (Z.mul_div_le (Z.pos M) _ H2p) as Hl.
    pose proof (Z.mul_succ_div_gt (Z.pos M) _ H2p) as Hu.
    set (t := Z.pos M / 2 ^ Z.pos p) in *.
    apply IZR_le in Hl. apply IZR_lt in Hu.
    rewrite mult_IZR, IZR_pow2 in Hl, Hu by lia.
    unfold Z.succ in Hu. rewrite plus_IZR in Hu.
    pose proof (powerRZ_lt 2 (Z.pos p) ltac:(lra)) as Hp.
    assert (Hinv : (powerRZ 2 (Z.neg p) * powerRZ 2 (Z.pos p) = 1)%R).
    { rewrite <- powerRZ_add by exact R2_neq_0.
      replace (Z.neg p + Z.pos p) with 0 by lia. reflexivity. }
    pose proof (powerRZ_lt 2 (Z.neg p) ltac:(lra)) as Hn.
    set (a := powerRZ 2 (Z.pos p)) in *. set (b := powerRZ 2 (Z.neg p)) in *.
    assert (HT : forall x : R, (x = (a * x) * b)%R).
    { intros x. rewrite (Rmult_comm a x), Rmult_assoc, (Rmult_comm a b), Hinv. ring. }
    split.
    + rewrite (HT (IZR t)). apply Rmult_le_compat_r; lra.
    + rewrite (HT (IZR t + 1)%R). apply Rmult_lt_compat_r; lra.
Qed.

End Rounding.

(* ================================================================== *)
(** * The split sizes *)
(* ================================================================== *)

Section SplitSizes.

Import Float64 Splits.

Lemma test_size_val_size (n : Z) : test_size n = val_size n.
Proof. reflexivity. Qed.

(** [int(.2 * n)] for a positive [n]: at most 0.2000000000000001 * n and
    more than 0.1999999999999999 * n - 1, unless [n] has 1024 bits or
    more and [float(n)] overflows. *)
Lemma val_size_positive (n : positive) :
  (exists t, val_size (Z.pos n) = Some t /\ 0 <= t /\ t + t <= Z.pos n
             /\ (6 <= Z.pos n -> 1 <= t))
  \/ (val_size (Z.pos n) = None /\ 2 ^ 1023 <= Z.pos n).
Proof.
  unfold val_size.
  destruct (of_int_accurate n) as [(M1 & E1 & -> & HM1 & HE1 & H1) | [-> Hbig]];
    [|right; split; [reflexivity | exact Hbig]].
  left. cbn [mbind option_bind].
  destruct (mul_point_two_accurate M1 E1 HM1 HE1) as (M & E & X & -> & HX & H2).
  destruct (to_int_floor M E) as (t & -> & Ht).
  exists t. split; [reflexivity|].
  pose proof (F2R_pos M E) as HV2.
  assert (Hn : (1 <= IZR (Z.pos n))%R) by (apply IZR_le; lia).
  repeat split.
  - assert (-1 < t); [|lia]. apply lt_IZR. lra.
  - apply le_IZR. rewrite plus_IZR. lra.
  - intros H6. apply IZR_le in H6.
    assert (0 < t); [|lia]. apply lt_IZR. lra.
Qed.

Lemma val_size_small :
  val_size 0 = Some 0 /\ val_size 1 = Some 0 /\ val_size 2 = Some 0
  /\ val_size 3 = Some 0 /\ val_size 4 = Some 0 /\ val_size 5 = Some 1.
Proof. repeat split; vm_compute; reflexivity. Qed.

(** The split size of every length: defined below 2^1023, not negative,
    at most half the length, and at least one exactly from length 5 on. *)
Lemma val_size_spec (n : Z) :
  0 <= n ->
  (exists t, val_size n = Some t /\ 0 <= t /\ t + t <= n /\ (1 <= t <-> 5 <= n))
  \/ (val_size n = None /\ 2 ^ 1023 <= n).
Proof.
  intros Hn. destruct n as [|p|p]; [| |lia].
  - left. exists 0. split; [apply val_size_small|]. lia.
  - destruct (val_size_positive p) as [(t & Ht & H0 & H2 & H6) | H]; [|right; exact H].
    left. exists t. repeat split; try assumption.
    + intros H1.
      destruct (Z_lt_le_dec (Z.pos p) 5) as [Hlt | Hge]; [|exact Hge].
      exfalso.
      assert (Hc : Z.pos p = 1 \/ Z.pos p = 2 \/ Z.pos p = 3 \/ Z.pos p = 4) by lia.
      destruct val_size_small as (_ & V1 & V2 & V3 & V4 & _).
      destruct Hc as [Hc | [Hc | [Hc | Hc]]]; rewrite Hc in Ht;
        congruence || (rewrite ?V1, ?V2, ?V3, ?V4 in Ht; injection Ht as <-; lia).
    + intros H5.
      destruct (Z.eq_dec (Z.pos p) 5) as [Hc | Hc]; [|apply H6; lia].
      rewrite Hc in Ht. destruct val_size_small as (_ & _ & _ & _ & _ & V5).
      rewrite V5 in Ht. injection Ht as <-. lia.
Qed.

(** C8.  For every length [n_time] the two split sizes are the same
    number, and together they are at most [n_time], so that the training
    region [n_time - val_size - test_size] is not negative.  They are
    defined for every [n_time] below 2^1023; from there on [.2 * n_time]
    may raise OverflowError, and then neither is computed. *)
Theorem split_sizes_fit (n_time : Z) :
  0 <= n_time ->
  (exists v t, val_size n_time = Some v /\ test_size n_time = Some t
               /\ v = t /\ 0 <= v /\ v + t <= n_time /\ 0 <= n_time - v - t)
  \/ (val_size n_time = None /\ test_size n_time = None /\ 2 ^ 1023 <= n_time).
Proof.
  intros Hn.
  destruct (val_size_spec n_time Hn) as [(t & Ht & H0 & H2 & _) | [Hnone Hbig]].
  - left. exists t, t. change (test_size n_time) with (val_size n_time).
    repeat split; try assumption; lia.
  - right. change (test_size n_time) with (val_size n_time). repeat split; assumption.
Qed.

Lemma split_sizes_fit_witness :
  0 <= 57600
  /\ ((exists v t, val_size 57600 = Some v /\ test_size 57600 = Some t
                   /\ v = t /\ 0 <= v /\ v + t <= 57600 /\ 0 <= 57600 - v - t)
      \/ (val_size 57600 = None /\ test_size 57600 = None /\ 2 ^ 1023 <= 57600)).
Proof.
  split; [lia | apply (split_sizes_fit 57600); lia].
Defined.

(** ** Looking the markers up *)

Lemma getitem_is_Some {A} (s : series A) (k : Z) :
  is_Some (getitem s k) <-> List.In k (labels s).
Proof.
  unfold getitem, labels. induction s as [|[l a] s IH]; cbn.
  - split; [intros [x Hx]; discriminate | tauto].
  - destruct (Z.eqb_spec l k) as [-> | Hne]; cbn.
    + split; [left; reflexivity | intros _; eexists; reflexivity].
    + rewrite IH. split; [tauto | intros [H | H]; [congruence | exact H]].
Qed.

Lemma getitem_in_range {A} (s : series A) (n k : Z) :
  labels s = seqZ 0 n -> (is_Some (getitem s k) <-> 0 <= k < n).
Proof.
  intros Hl. rewrite getitem_is_Some, Hl, <- list_elem_of_In, elem_of_seqZ. lia.
Qed.

Lemma filter_all {A} (f : A -> bool) (l : list A) :
  Forall (fun x => f x = true) l -> List.filter f l = l.
Proof.
  induction 1 as [|x l Hx _ IH]; cbn; [reflexivity|]. rewrite Hx, IH. reflexivity.
Qed.

Lemma filter_none {A} (f : A -> bool) (l : list A) :
  Forall (fun x => f x = false) l -> List.filter f l = [].
Proof.
  induction 1 as [|x l Hx _ IH]; cbn; [reflexivity|]. rewrite Hx, IH. reflexivity.
Qed.

Lemma Forall_zip_snd {A B} (P : B -> Prop) (ks : list A) (rs : list B) :
  Forall P rs -> Forall (fun p => P (snd p)) (zip ks rs).
Proof.
  intros H. revert ks. induction H as [|r rs Hr _ IH]; intros [|k ks]; cbn;
    constructor; [exact Hr | apply IH].
Qed.

Lemma map_fst_zip {A B} (ks : list A) (rs : list B) :
  length ks = length rs -> map fst (zip ks rs) = ks.
Proof.
  revert rs. induction ks as [|k ks IH]; intros [|r rs] Hlen; cbn in *;
    try reflexivity; try discriminate.
  f_equal. apply IH. congruence.
Qed.

(** When the rows of a series come first in the frame, as those of the
    first series of the data file do, its timestamps are labelled from 0
    on. *)
Lemma x_plot_labels (rows rest : frame) (u_id : string) :
  Forall (fun r => unique_id r = u_id) rows ->
  Forall (fun r => unique_id r <> u_id) rest ->
  labels (x_plot (rows ++ rest) u_id) = seqZ 0 (Z.of_nat (length rows)).
Proof.
  intros Hrows Hrest. unfold x_plot, labelled, labels.
  rewrite length_app, Nat2Z.inj_add, seqZ_app by lia.
  rewrite (zip_with_app pair (seqZ 0 (Z.of_nat (length rows))) _ rows rest)
    by (rewrite length_seqZ; lia).
  rewrite List.filter_app, filter_all, filter_none, app_nil_r.
  - rewrite map_map. cbn [fst].
    change (map (fun x : Z * observation => fst x)) with (@map (Z * observation) Z fst).
    apply map_fst_zip. rewrite length_seqZ. lia.
  - apply (Forall_zip_snd (fun r => String.eqb (unique_id r) u_id = false)).
    apply (Forall_impl _ _ _ Hrest). intros r Hr. apply String.eqb_neq. exact Hr.
  - apply (Forall_zip_snd (fun r => String.eqb (unique_id r) u_id = true)).
    apply (Forall_impl _ _ _ Hrows). intros r Hr. apply String.eqb_eq. exact Hr.
Qed.

(** C9, amended.  On the [n_time] timestamps of the plotted series, labelled 0 to
    [n_time - 1], the look-up [x_plot[n_time - test_size]] finds a value
    only when [test_size >= 1], which is only when [n_time >= 5].  For
    [n_time] from 1 to 4, [test_size] is 0, the label looked up is
    [n_time], one past the last, and the look-up fails.  (From 5 up to
    2^1023 it succeeds.) *)
Theorem test_marker_lookup (x_plot : series Z) (n_time : Z) :
  0 <= n_time ->
  labels x_plot = seqZ 0 n_time ->
  (forall t, test_size n_time = Some t ->
             (1 <= t <-> 5 <= n_time)
             /\ (is_Some (getitem x_plot (n_time - t)) <-> 1 <= t))
  /\ (is_Some (x_test x_plot n_time) -> 5 <= n_time)
  /\ (1 <= n_time <= 4 ->
      test_size n_time = Some 0
      /\ getitem x_plot (n_time - 0) = None
      /\ x_test x_plot n_time = None)
  /\ (5 <= n_time < 2 ^ 1023 -> is_Some (x_test x_plot n_time)).
Proof.
  intros Hn Hl.
  assert (Hall : forall t, test_size n_time = Some t ->
             (1 <= t <-> 5 <= n_time)
             /\ (is_Some (getitem x_plot (n_time - t)) <-> 1 <= t)).
  { intros t Ht. change (test_size n_time) with (val_size n_time) in Ht.
    destruct (val_size_spec n_time Hn) as [(t' & Ht' & H0 & H2 & H5) | [Hnone _]];
      [|congruence].
    assert (t' = t) by congruence. subst t'.
    split; [exact H5|]. rewrite (getitem_in_range x_plot n_time) by exact Hl. lia. }
  split; [exact Hall|].
  split; [|split].
  - unfold x_test. destruct (test_size n_time) as [t|] eqn:Ht; cbn [mbind option_bind].
    + intros Hs. destruct (Hall t eq_refl) as [H5 Hr]. tauto.
    + intros [x Hx]. discriminate.
  - intros Hsmall.
    assert (Ht : test_size n_time = Some 0).
    { change (test_size n_time) with (val_size n_time).
      destruct val_size_small as (_ & V1 & V2 & V3 & V4 & _).
      assert (Hc : n_time = 1 \/ n_time = 2 \/ n_time = 3 \/ n_time = 4) by lia.
      destruct Hc as [-> | [-> | [-> | ->]]]; assumption. }
    assert (Hnone : getitem x_plot (n_time - 0) = None).
    { destruct (getitem x_plot (n_time - 0)) as [x|] eqn:Hx; [|reflexivity].
      exfalso. assert (Hs : is_Some (getitem x_plot (n_time - 0))) by (eexists; exact Hx).
      rewrite (getitem_in_range x_plot n_time) in Hs by exact Hl. lia. }
    split; [exact Ht|]. split; [exact Hnone|].
    unfold x_test. rewrite Ht. cbn [mbind option_bind]. exact Hnone.
  - intros [H5 Hbig]. unfold x_test.
    destruct (val_size_spec n_time Hn) as [(t & Ht & H0 & H2 & Ht5) | [_ Hge]]; [|lia].
    change (test_size n_time) with (val_size n_time). rewrite Ht. cbn [mbind option_bind].
    rewrite (getitem_in_range x_plot n_time) by exact Hl. lia.
Qed.

Lemma test_marker_lookup_witness :
  let row := fun u t => {| unique_id := u; ds := t; y := S754_zero false |} in
  let Y_df : frame :=
    [row "HUFL" 0; row "HUFL" 900; row "HUFL" 1800; row "HUFL" 2700;
     row "HULL" 0; row "HULL" 900; row "HULL" 1800; row "HULL" 2700] in
  0 <= n_time Y_df
  /\ labels (x_plot Y_df "HUFL") = seqZ 0 (n_time Y_df)
  /\ n_time Y_df = 4
  /\ test_size (n_time Y_df) = Some 0
  /\ getitem (x_plot Y_df "HUFL") (n_time Y_df - 0) = None
  /\ x_test (x_plot Y_df "HUFL") (n_time Y_df) = None.
Proof.
  intros row Y_df.
  split; [unfold n_time; lia|]. split; [reflexivity|]. split; [reflexivity|].
  apply (test_marker_lookup (x_plot Y_df "HUFL") (n_time Y_df));
    [unfold n_time; lia | reflexivity | change (n_time Y_df) with 4; lia].
Defined.

(** C9, as stated, fails: the look-up is by label, not by position, and
    the labels of the plotted series are those its rows have in the
    frame.  When a row of another series comes first, a frame of two
    timestamps has [test_size = 0] and [x_plot[n_time - test_size]] is
    the label 2, which the series has: the look-up returns a value. *)
Lemma test_marker_found_by_label :
  ~ (forall (Y_df : frame) (u_id : string),
       1 <= n_time Y_df <= 4 ->
       x_test (x_plot Y_df u_id) (n_time Y_df) = None).
Proof.
  intros H.
  specialize (H [ {| unique_id := "AAA"; ds := 0; y := S754_zero false |};
                  {| unique_id := "HUFL"; ds := 0; y := S754_zero false |};
                  {| unique_id := "HUFL"; ds := 900; y := S754_zero false |} ]
                "HUFL").
  assert (Hn : 1 <= 2 <= 4) by lia.
  apply H in Hn. vm_compute in Hn. discriminate.
Qed.

(** The look-up of the validation marker, one statement earlier, finds
    a value for the same lengths. *)
Lemma val_marker_lookup (x_plot : series Z) (n_time : Z) :
  0 <= n_time ->
  labels x_plot = seqZ 0 n_time ->
  (is_Some (x_val x_plot n_time) -> 5 <= n_time)
  /\ (5 <= n_time < 2 ^ 1023 -> is_Some (x_val x_plot n_time)).
Proof.
  intros Hn Hl. unfold x_val.
  change (test_size n_time) with (val_size n_time).
  destruct (val_size_spec n_time Hn) as [(t & Ht & H0 & H2 & H5) | [Hnone Hbig]].
  - rewrite Ht. cbn [mbind option_bind].
    rewrite (getitem_in_range x_plot n_time) by exact Hl. lia.
  - rewrite Hnone. cbn [mbind option_bind]. split; [intros [x Hx]; discriminate | lia].
Qed.

(** The ETTm2 data have 57600 timestamps: both sizes are 11520, and the
    markers are the timestamps at 34560 and 46080. *)
Example ettm2_split_sizes :
  val_size 57600 = Some 11520 /\ test_size 57600 = Some 11520
  /\ 57600 - 11520 - 11520 = 34560 /\ 57600 - 11520 = 46080.
Proof. repeat split; vm_compute; reflexivity. Qed.

(** For large lengths the size is not the fifth rounded down: just below
    2^53 it is one more. *)
Example val_size_is_not_floor_division :
  val_size 9007199254740989 = Some 1801439850948198
  /\ 9007199254740989 / 5 = 1801439850948197.
Proof. split; vm_compute; reflexivity. Qed.

End SplitSizes.

(* ================================================================== *)
(** * The shapes of the parsed results *)
(* ================================================================== *)

Section ParsedResults.

Import Evaluate.

Lemma remove_dups_nonempty {A} `{EqDecision A} (l : list A) :
  l <> [] -> remove_dups l <> [].
Proof.
  induction l as [|x l IH]; [congruence|]. intros _. cbn.
  destruct (decide_rel elem_of x l) as [Hin | Hnin]; [|discriminate].
  apply IH. intros ->. inversion Hin.
Qed.

(** A frame with a row has a series. *)
Lemma n_series_positive (Y_df : Splits.frame) : Y_df <> [] -> 0 < n_series Y_df.
Proof.
  intros Hne. unfold n_series.
  assert (H : remove_dups (map Splits.unique_id Y_df) <> []).
  { apply remove_dups_nonempty. destruct Y_df; [congruence | discriminate]. }
  destruct (remove_dups (map Splits.unique_id Y_df)); [congruence | cbn; lia].
Qed.

(** The shape inferred for [(n, -1, horizon)] when there is a series. *)
Lemma fix_unknown_dimension_parsed (size n : Z) :
  0 < n ->
  fix_unknown_dimension size [n; -1; horizon]
  = if Z.eqb (size mod (n * horizon)) 0
    then Some [n; size / (n * horizon); horizon]
    else None.
Proof.
  intros Hn. unfold fix_unknown_dimension, horizon. cbn [List.filter].
  replace (Z.leb 0 n) with true by (symmetry; apply Z.leb_le; lia).
  replace (Z.ltb n 0) with false by (symmetry; apply Z.ltb_ge; lia).
  cbn [Z.leb Z.ltb Z.compare List.filter fold_right map].
  replace (n * (96 * 1)) with (n * 96) by lia.
  replace (Z.eqb (n * 96) 0) with false by (symmetry; apply Z.eqb_neq; lia).
  cbn [orb]. replace (Z.ltb n 0) with false by (symmetry; apply Z.ltb_ge; lia).
  destruct (Z.eqb (size mod (n * 96)) 0); reflexivity.
Qed.

(** Without a series numpy refuses the shape, whatever the size. *)
Lemma parsed_without_series (a : ndarray) : parsed a 0 = None.
Proof. reflexivity. Qed.

Lemma parsed_spec (a : ndarray) (n : Z) :
  0 < n ->
  (is_Some (parsed a n) <-> (n * horizon | size a))
  /\ forall b, parsed a n = Some b ->
               shape b = [n; size a / (n * horizon); horizon] /\ data b = data a.
Proof.
  intros Hn. unfold parsed, reshape.
  rewrite (fix_unknown_dimension_parsed (size a) n Hn).
  assert (Hpos : n * horizon <> 0) by (unfold horizon; lia).
  destruct (Z.eqb_spec (size a mod (n * horizon)) 0) as [Hz | Hnz]; cbn [mbind option_bind].
  - split.
    + split; [intros _; apply Z.mod_divide; assumption | intros _; eexists; reflexivity].
    + intros b [= <-]. split; reflexivity.
  - split.
    + split; [intros [b Hb]; discriminate|].
      intros Hdiv. apply Z.mod_divide in Hdiv; [contradiction | assumption].
    + intros b Hb. discriminate.
Qed.

(** C10.  [y_true] and [y_hat] are two columns of the one frame
    [fcst_df], so they have the same length.  With at least one series
    in [Y_df], the reshape to [(n_series, -1, horizon)] succeeds exactly
    when that length is a multiple of [n_series * horizon], for both
    alike, and then both arrays have the shape
    [(n_series, length / (n_series * horizon), horizon)]. *)
Theorem parsed_results_shapes (Y_df : Splits.frame) (fcst_df : list forecast) :
  Y_df <> [] ->
  let n := n_series Y_df in
  let len := Z.of_nat (length fcst_df) in
  size (y_true fcst_df) = len
  /\ size (y_hat fcst_df) = len
  /\ (is_Some (parsed (y_true fcst_df) n) <-> (n * horizon | len))
  /\ (is_Some (parsed (y_hat fcst_df) n) <-> (n * horizon | len))
  /\ ((n * horizon | len) ->
      exists a b,
        parsed (y_true fcst_df) n = Some a
        /\ parsed (y_hat fcst_df) n = Some b
        /\ shape a = [n; len / (n * horizon); horizon]
        /\ shape b = shape a).
Proof.
  intros Hne n len.
  assert (Hn : 0 < n) by (apply n_series_positive; exact Hne).
  assert (Ht : size (y_true fcst_df) = len)
    by (unfold size, y_true, values; cbn [data]; rewrite length_map; reflexivity).
  assert (Hh : size (y_hat fcst_df) = len)
    by (unfold size, y_hat, values; cbn [data]; rewrite length_map; reflexivity).
  destruct (parsed_spec (y_true fcst_df) n Hn) as [Hts Hta].
  destruct (parsed_spec (y_hat fcst_df) n Hn) as [Hhs Hha].
  rewrite Ht in Hts, Hta. rewrite Hh in Hhs, Hha.
  repeat split; try assumption; try apply Hts; try apply Hhs.
  intros Hdiv.
  destruct (proj2 Hts Hdiv) as [a Ha]. destruct (proj2 Hhs Hdiv) as [b Hb].
  exists a, b. destruct (Hta a Ha) as [Hsa _]. destruct (Hha b Hb) as [Hsb _].
  repeat split; try assumption. congruence.
Qed.

Lemma parsed_results_shapes_witness :
  let row := fun u => {| Splits.unique_id := u; Splits.ds := 0;
                         Splits.y := S754_zero false |} in
  let Y_df : Splits.frame := [row "HUFL"; row "HULL"; row "HUFL"] in
  let forecast_row := {| unique_id := "HUFL"; ds := 0; cutoff := 0;
                         AutoNHITS := S754_zero false; y := S754_zero false |} in
  let fcst_df : list forecast := repeat forecast_row 384 in
  Y_df <> []
  /\ n_series Y_df = 2
  /\ size (y_true fcst_df) = 384
  /\ is_Some (parsed (y_true fcst_df) (n_series Y_df)).
Proof.
  intros row Y_df forecast_row fcst_df.
  split; [discriminate|].
  split; [reflexivity|].
  split; [reflexivity|].
  apply (parsed_results_shapes Y_df fcst_df); [discriminate|].
  exists 2. reflexivity.
Defined.

End ParsedResults.

(* ================================================================== *)
(** * The split size as a fifth *)
(* ================================================================== *)

Section Fifth.

Import Float64 Splits.

(** Rounding never goes below truncation: the mantissa kept is at least
    the given one cut at the exponent of the result, and at most one
    unit of the 53rd digit above the given one. *)
Lemma binary_round_aux_above (s : bool) (m : positive) (e : Z) :
  let d := Z.pos (digits2_pos m) in
  53 < d -> -1074 <= d + e - 53 ->
  exists M E,
    binary_round_aux prec emax s (Z.pos m) e loc_Exact
      = (if Z.leb E 971 then S754_finite s M E else S754_infinity s) /\
    e + d - 53 <= E <= e + d - 52 /\
    Z.pos m / 2 ^ (E - e) <= Z.pos M /\
    Z.pos M * 2 ^ (E - e) <= Z.pos m + 2 ^ (d - 53).
Proof.
  intros d Hd Hlo.
  pose proof (digits2_pos_bounds m) as Hm. fold d in Hm.
  set (k := d - 53) in *.
  assert (Hk : 0 < k) by lia.
  assert (H2k : 0 < 2 ^ k) by (apply Z.pow_pos_nonneg; lia).
  assert (Hlow : 2 ^ (d - 1) = 2 ^ 52 * 2 ^ k)
    by (rewrite <- Z.pow_add_r by lia; f_equal; lia).
  assert (Hupp : 2 ^ d = 2 ^ 53 * 2 ^ k)
    by (rewrite <- Z.pow_add_r by lia; f_equal; lia).
  set (q := Z.pos m / 2 ^ k).
  assert (Hq : 2 ^ 52 <= q < 2 ^ 53).
  { split.
    - apply Z.div_le_lower_bound; lia.
    - apply Z.div_lt_upper_bound; lia. }
  pose proof (Z.mul_div_le (Z.pos m) (2 ^ k) H2k) as Hql. fold q in Hql.
  unfold binary_round_aux, shr_fexp. cbn [Zdigits2]. fold d.
  replace (fexp prec emax (d + e) - e) with k
    by (unfold fexp, emin, prec, emax, k; lia).
  pose proof (shr_m_shift (Z.pos m) e k ltac:(lia) ltac:(lia)) as Hs.
  destruct (shr (shr_record_of_loc (Z.pos m) loc_Exact) e k) as [mrs' e'].
  destruct Hs as [Hs He']. fold q in Hs. rewrite Hs.
  pose proof (round_nearest_even_bounds q (loc_of_shr_record mrs')) as Hr.
  set (m' := round_nearest_even q (loc_of_shr_record mrs')) in *.
  destruct (Z.eq_dec m' (2 ^ 53)) as [Hc | Hc].
  - rewrite Hc.
    replace (Zdigits2 (2 ^ 53)) with 54 by (vm_compute; reflexivity).
    replace (fexp prec emax (54 + e') - e') with 1
      by (unfold fexp, emin, prec, emax; lia).
    cbn [shr shr_record_of_loc SpecFloat.iter_pos].
    change (shr_m (shr_1 {| shr_m := 2 ^ 53; shr_r := false; shr_s := false |}))
      with (Z.pos (2 ^ 52)).
    cbv iota beta.
    exists (2 ^ 52)%positive, (e' + 1).
    split; [reflexivity|]. split; [lia|].
    change (Z.pos (2 ^ 52)) with (2 ^ 52).
    replace (e' + 1 - e) with (k + 1) by lia.
    rewrite Z.pow_add_r by lia. change (2 ^ 1) with 2.
    split.
    + rewrite <- Z.div_div by lia. fold q.
      apply Z.div_le_upper_bound; lia.
    + nia.
  - assert (Hm' : 2 ^ 52 <= m' < 2 ^ 53) by lia.
    rewrite (digits2_unique m' 53) by (change (53 - 1) with 52; lia).
    replace (fexp prec emax (53 + e') - e') with 0
      by (unfold fexp, emin, prec, emax; lia).
    cbn [shr shr_record_of_loc shr_m].
    destruct m' as [|M|M] eqn:EM; [lia| |lia].
    exists M, e'.
    split; [reflexivity|]. split; [lia|].
    replace (e' - e) with k by lia. fold q. split; [lia | nia].
Qed.

(** [float(n)] is [n] itself for a positive integer of at most 53 bits:
    the mantissa is [n] shifted to 53 digits. *)
Lemma of_int_exact (n : positive) :
  let d := Z.pos (digits2_pos n) in
  d <= 53 ->
  exists M,
    of_int (Z.pos n) = Some (S754_finite false M (d - 53)) /\
    Z.pos M = Z.pos n * 2 ^ (53 - d).
Proof.
  intros d Hd.
  pose proof (digits2_pos_bounds n) as Hn. fold d in Hn.
  assert (Hd1 : 1 <= d) by (unfold d; lia).
  assert (Hshift : exists mz, shl_align n 0 (d - 53) = (mz, d - 53)
                              /\ Z.pos mz = Z.pos n * 2 ^ (53 - d)).
  { unfold shl_align. destruct (d - 53 - 0) as [|p|p] eqn:Hp; [|lia|].
    - replace (d - 53) with 0 by lia. exists n. split; [reflexivity|].
      replace (53 - d) with 0 by lia. lia.
    - exists (Pos.iter xO n p). split; [reflexivity|].
      rewrite pos_iter_xO. f_equal. f_equal. lia. }
  destruct Hshift as (mz & Hal & Hmz).
  assert (H2p : 0 < 2 ^ (53 - d)) by (apply Z.pow_pos_nonneg; lia).
  assert (H52 : 2 ^ 52 = 2 ^ (d - 1) * 2 ^ (53 - d))
    by (rewrite <- Z.pow_add_r by lia; f_equal; lia).
  assert (H53 : 2 ^ 53 = 2 ^ d * 2 ^ (53 - d))
    by (rewrite <- Z.pow_add_r by lia; f_equal; lia).
  assert (Hdz : Zdigits2 (Z.pos mz) = 53).
  { apply digits2_unique; [|lia]. change (53 - 1) with 52.
    rewrite Hmz, H52, H53. split.
    - apply Z.mul_le_mono_nonneg_r; lia.
    - apply Z.mul_lt_mono_pos_r; lia. }
  exists mz. split; [|exact Hmz].
  unfold of_int, binary_normalize, binary_round. fold d.
  replace (fexp prec emax (d + 0)) with (d - 53)
    by (unfold fexp, emin, prec, emax; lia).
  rewrite Hal. unfold binary_round_aux, shr_fexp. rewrite Hdz.
  replace (fexp prec emax (53 + (d - 53)) - (d - 53)) with 0
    by (unfold fexp, emin, prec, emax; lia).
  cbn [shr shr_record_of_loc loc_of_shr_record shr_m round_nearest_even].
  rewrite Hdz.
  replace (fexp prec emax (53 + (d - 53)) - (d - 53)) with 0
    by (unfold fexp, emin, prec, emax; lia).
  cbn [shr shr_record_of_loc shr_m].
  replace (Z.leb (d - 53) (emax - prec)) with true
    by (symmetry; apply Z.leb_le; unfold emax, prec; lia).
  reflexivity.
Qed.


(** [int(.2 * n)] is [n // 5] for a positive [n] up to 2^51. *)
Lemma val_size_fifth_positive (n : positive) :
  Z.pos n <= 2 ^ 51 -> val_size (Z.pos n) = Some (Z.pos n / 5).
Proof.
  intros Hn.
  pose proof (digits2_pos_bounds n) as Hdn.
  set (d := Z.pos (digits2_pos n)) in *.
  assert (Hd1 : 1 <= d) by (unfold d; lia).
  assert (Hd52 : d - 1 < 52) by (apply pow2_lt_inv; lia).
  destruct (of_int_exact n) as (M1 & Hof & HM1); fold d; [lia|]. fold d in Hof, HM1.
  set (a := 53 - d) in *.
  assert (Ha : 1 <= a) by (unfold a; lia).
  set (P := 2 ^ a) in *.
  assert (HP : 0 < P) by (apply Z.pow_pos_nonneg; lia).
  assert (H52 : 2 ^ 52 = 2 ^ (d - 1) * P)
    by (unfold P; rewrite <- Z.pow_add_r by lia; f_equal; lia).
  assert (H53 : 2 ^ 53 = 2 ^ d * P)
    by (unfold P; rewrite <- Z.pow_add_r by lia; f_equal; lia).
  assert (HM1b : 2 ^ 52 <= Z.pos M1 < 2 ^ 53).
  { rewrite HM1, H52, H53. split.
    - apply Z.mul_le_mono_nonneg_r; lia.
    - apply Z.mul_lt_mono_pos_r; lia. }
  unfold val_size. rewrite Hof. cbn [mbind option_bind].
  unfold mul, point_two, SFmul. cbn [xorb].
  set (m := (7205759403792794 * M1)%positive).
  assert (Hm : Z.pos m = 7205759403792794 * Z.pos M1) by reflexivity.
  pose proof (digits2_pos_bounds m) as Hd2.
  set (d2 := Z.pos (digits2_pos m)) in *.
  assert (Hlo : 2 ^ 104 <= Z.pos m) by (rewrite Hm; lia).
  assert (Hhi : Z.pos m < 2 ^ 106) by (rewrite Hm; lia).
  assert (Hd2a : 104 < d2) by (apply pow2_lt_inv; lia).
  assert (Hd2b : d2 - 1 < 106) by (apply pow2_lt_inv; lia).
  destruct (binary_round_aux_above false m (-55 + (d - 53)))
    as (M & E & Hr & HE & Hbelow & Habove); fold d2; try lia.
  fold d2 in HE, Habove.
  replace (Z.leb E 971) with true in Hr by (symmetry; apply Z.leb_le; lia).
  rewrite Hr. unfold to_int, cond_Zopp.
  set (k := d2 - 53) in *.
  set (K := 2 ^ k) in *.
  assert (HK : 0 < K) by (apply Z.pow_pos_nonneg; lia).
  assert (HKm : 2 ^ 52 * K <= Z.pos m).
  { unfold K. rewrite <- Z.pow_add_r by lia.
    replace (52 + k) with (d2 - 1) by lia. lia. }
  destruct E as [|p|p]; [lia|lia|].
  f_equal.
  set (A := Z.pos p) in *.
  set (B := Z.neg p - (-55 + (d - 53))) in *.
  assert (HAB : A + B = 55 + a) by (unfold A, B, a; lia).
  assert (HB : 0 <= B) by lia.
  assert (H2A : 0 < 2 ^ A) by (apply Z.pow_pos_nonneg; lia).
  assert (H2B : 0 < 2 ^ B) by (apply Z.pow_pos_nonneg; lia).
  assert (Hpow : 2 ^ B * 2 ^ A = 2 ^ 55 * P).
  { unfold P. rewrite <- !Z.pow_add_r by lia. f_equal. lia. }
  assert (Hmn : Z.pos m = 7205759403792794 * Z.pos n * P) by (rewrite Hm, HM1; lia).
  set (t := Z.pos M / 2 ^ A).
  pose proof (Z.mul_div_le (Z.pos M) (2 ^ A) H2A) as HtM. fold t in HtM.
  apply Z.le_antisymm.
  - (* not above the fifth *)
    apply Z.div_le_lower_bound; [lia|].
    assert (H1 : t * (2 ^ 55 * P) <= Z.pos m + K) by (rewrite <- Hpow; nia).
    assert (H2 : K * 2 ^ 52 < 2 ^ 53 * Z.pos n * P) by nia.
    assert (H3 : K < 2 * Z.pos n * P) by lia.
    assert (H4 : (t * 2 ^ 55) * P < ((7205759403792794 + 2) * Z.pos n) * P) by nia.
    apply Z.mul_lt_mono_pos_r in H4; [|exact HP]. lia.
  - (* not below the fifth *)
    apply Z.le_trans with (7205759403792794 * Z.pos n / 2 ^ 55).
    + apply Z.div_le_lower_bound; [lia|].
      pose proof (Z.mul_div_le (Z.pos n) 5 ltac:(lia)). lia.
    + replace (7205759403792794 * Z.pos n / 2 ^ 55) with (Z.pos m / (2 ^ B * 2 ^ A)).
      * rewrite <- Z.div_div by lia. apply Z.div_le_mono; lia.
      * rewrite Hpow, Hmn. apply Z.div_mul_cancel_r; lia.
Qed.

Lemma val_size_fifth (n_time : Z) :
  0 <= n_time <= 2 ^ 51 -> val_size n_time = Some (n_time / 5).
Proof.
  intros [H0 Hn].
  destruct n_time as [|p|p];
    [reflexivity | apply val_size_fifth_positive; exact Hn | lia].
Qed.

(** X1.  For every length up to 2^51 both split sizes are the length
    divided by five and rounded down: the rounding of [.2 * n_time] never
    shows. *)
Theorem split_sizes_are_fifths (n_time : Z) :
  0 <= n_time <= 2 ^ 51 ->
  val_size n_time = Some (n_time / 5) /\ test_size n_time = Some (n_time / 5).
Proof.
  intros Hn. split.
  - apply val_size_fifth. exact Hn.
  - change (test_size n_time) with (val_size n_time).
    apply val_size_fifth. exact Hn.
Qed.

Lemma split_sizes_are_fifths_witness :
  0 <= 57600 <= 2 ^ 51
  /\ val_size 57600 = Some (57600 / 5) /\ test_size 57600 = Some (57600 / 5).
Proof.
  split; [lia | apply (split_sizes_are_fifths 57600); lia].
Defined.


Lemma val_size_near_fifth_positive (n : positive) (t : Z) :
  val_size (Z.pos n) = Some t ->
  2 ^ 50 * (5 * t - Z.pos n) <= Z.pos n
  /\ 2 ^ 50 * (Z.pos n - 5 * t - 5) < Z.pos n.
Proof.
  unfold val_size.
  destruct (of_int_accurate n) as [(M1 & E1 & -> & HM1 & HE1 & H1) | [-> _]];
    [|discriminate].
  cbn [mbind option_bind].
  destruct (mul_point_two_accurate M1 E1 HM1 HE1) as (M & E & X & -> & HX & H2).
  destruct (to_int_floor M E) as (t' & -> & Ht).
  intros [= <-].
  assert (Hn : (1 <= IZR (Z.pos n))%R) by (apply IZR_le; lia).
  split.
  - apply le_IZR. rewrite !mult_IZR, minus_IZR, mult_IZR.
    change (IZR (2 ^ 50)) with 1125899906842624%R. lra.
  - apply lt_IZR. rewrite !mult_IZR, !minus_IZR, mult_IZR.
    change (IZR (2 ^ 50)) with 1125899906842624%R. lra.
Qed.

(** X2.  Whatever the length, a split size that is computed is a fifth
    of it up to the rounding of the two floating-point steps: five times
    the size is at most [n_time * (1 + 2^-50)] and more than
    [n_time * (1 - 2^-50) - 5]. *)
Theorem split_size_near_fifth (n_time t : Z) :
  0 <= n_time ->
  val_size n_time = Some t ->
  2 ^ 50 * (5 * t - n_time) <= n_time
  /\ 2 ^ 50 * (n_time - 5 * t - 5) < n_time.
Proof.
  intros Hn Ht. destruct n_time as [|p|p]; [| |lia].
  - vm_compute in Ht. injection Ht as <-. lia.
  - apply val_size_near_fifth_positive. exact Ht.
Qed.

Lemma split_size_near_fifth_witness :
  0 <= 9007199254740989
  /\ val_size 9007199254740989 = Some 1801439850948198
  /\ 2 ^ 50 * (5 * 1801439850948198 - 9007199254740989) <= 9007199254740989
  /\ 2 ^ 50 * (9007199254740989 - 5 * 1801439850948198 - 5) < 9007199254740989.
Proof.
  split; [lia|]. split; [vm_compute; reflexivity|].
  apply (split_size_near_fifth 9007199254740989 1801439850948198);
    [lia | vm_compute; reflexivity].
Defined.

(** X3.  Below 2^53 there are lengths whose split size is not the fifth
    rounded down but one more: the product [.2 * n_time] is rounded up
    to the next integer. *)
Theorem split_size_above_fifth :
  exists n_time,
    2 ^ 51 < n_time < 2 ^ 53
    /\ n_time mod 5 = 4
    /\ val_size n_time = Some (n_time / 5 + 1)
    /\ test_size n_time = Some (n_time / 5 + 1).
Proof.
  exists 9007199254740989.
  split; [lia|]. split; [reflexivity|]. split; vm_compute; reflexivity.
Qed.

End Fifth.

(* ================================================================== *)
(** * The markers of a series *)
(* ================================================================== *)

Section Markers.

Import Float64 Splits.

Lemma getitem_labelled {A} (s : series A) (off len k : Z) :
  labels s = seqZ off len ->
  (is_Some (getitem s k) <-> off <= k < off + len).
Proof.
  intros Hl. rewrite getitem_is_Some, Hl, <- list_elem_of_In, elem_of_seqZ. lia.
Qed.

Lemma getitem_missing {A} (s : series A) (off len k : Z) :
  labels s = seqZ off len -> ~ (off <= k < off + len) -> getitem s k = None.
Proof.
  intros Hl Hk. destruct (getitem s k) as [x|] eqn:Hx; [|reflexivity].
  exfalso. apply Hk. apply (getitem_labelled s off len k Hl). eexists. exact Hx.
Qed.

(** Under the labels [off, off + 1, ...] the value of the label [k] is the
    one at position [k - off]. *)
Lemma getitem_position {A} (s : series A) :
  forall off len k,
    labels s = seqZ off len -> off <= k < off + len ->
    exists a, getitem s k = Some a /\ s !! Z.to_nat (k - off) = Some (k, a).
Proof.
  induction s as [|[l a] s IH]; intros off len k Hl Hk.
  - exfalso. cbn in Hl. symmetry in Hl. apply (f_equal (@length Z)) in Hl.
    rewrite length_seqZ in Hl. cbn in Hl. lia.
  - assert (Hlen : 0 < len) by lia.
    rewrite (seqZ_cons off len Hlen) in Hl. cbn in Hl.
    injection Hl as -> Hl'.
    unfold getitem. cbn [List.find fst].
    destruct (Z.eqb_spec off k) as [-> | Hne].
    + exists a. split; [reflexivity|].
      replace (k - k) with 0 by lia. reflexivity.
    + destruct (IH (Z.succ off) (Z.pred len) k Hl' ltac:(lia)) as (b & Hb & Hpos).
      exists b. split; [exact Hb|].
      replace (Z.to_nat (k - off)) with (S (Z.to_nat (k - Z.succ off))) by lia.
      exact Hpos.
Qed.

Lemma selected_rows (before rows rest : frame) (u_id : string) :
  Forall (fun r => unique_id r <> u_id) before ->
  Forall (fun r => unique_id r = u_id) rows ->
  Forall (fun r => unique_id r <> u_id) rest ->
  List.filter (fun p => String.eqb (unique_id (snd p)) u_id)
              (labelled (before ++ rows ++ rest))
  = zip (seqZ (Z.of_nat (length before)) (Z.of_nat (length rows))) rows.
Proof.
  intros Hbefore Hrows Hrest.
  unfold labelled.
  rewrite !length_app, !Nat2Z.inj_add, !seqZ_app by lia.
  rewrite (zip_with_app pair (seqZ 0 (Z.of_nat (length before))) _ before)
    by (rewrite length_seqZ; lia).
  rewrite (zip_with_app pair (seqZ (0 + Z.of_nat (length before))
                                   (Z.of_nat (length rows))) _ rows)
    by (rewrite length_seqZ; lia).
  rewrite !List.filter_app.
  rewrite (filter_none _ (zip (seqZ 0 (Z.of_nat (length before))) before)).
  2:{ apply (Forall_zip_snd (fun r => String.eqb (unique_id r) u_id = false)).
      apply (Forall_impl _ _ _ Hbefore). intros r Hr.
      apply String.eqb_neq. exact Hr. }
  rewrite (filter_none _ (zip _ rest)).
  2:{ apply (Forall_zip_snd (fun r => String.eqb (unique_id r) u_id = false)).
      apply (Forall_impl _ _ _ Hrest). intros r Hr.
      apply String.eqb_neq. exact Hr. }
  rewrite filter_all.
  2:{ apply (Forall_zip_snd (fun r => String.eqb (unique_id r) u_id = true)).
      apply (Forall_impl _ _ _ Hrows). intros r Hr.
      apply String.eqb_eq. exact Hr. }
  rewrite app_nil_r. cbn [app]. reflexivity.
Qed.

(** X4.  Selecting the rows of one series keeps the labels they have in
    the frame: when the series is a block that follows [k] rows of other
    series, its timestamps are labelled [k], [k + 1], ... *)
Theorem x_plot_keeps_labels (before rows rest : frame) (u_id : string) :
  Forall (fun r => unique_id r <> u_id) before ->
  Forall (fun r => unique_id r = u_id) rows ->
  Forall (fun r => unique_id r <> u_id) rest ->
  labels (x_plot (before ++ rows ++ rest) u_id)
    = seqZ (Z.of_nat (length before)) (Z.of_nat (length rows))
  /\ map snd (x_plot (before ++ rows ++ rest) u_id) = map ds rows.
Proof.
  intros Hbefore Hrows Hrest.
  pose proof (selected_rows before rows rest u_id Hbefore Hrows Hrest) as Hsel.
  unfold x_plot, labels. rewrite Hsel, !map_map. cbn [fst snd].
  assert (Hlen : length (seqZ (Z.of_nat (length before)) (Z.of_nat (length rows)))
                 = length rows) by (rewrite length_seqZ; lia).
  revert Hlen.
  generalize (seqZ (Z.of_nat (length before)) (Z.of_nat (length rows))).
  clear. intros ks. revert ks.
  induction rows as [|r rows IH]; intros [|k ks] Hlen; cbn in *;
    try discriminate; try (split; reflexivity).
  destruct (IH ks ltac:(congruence)) as [H1 H2].
  split; f_equal; assumption.
Qed.

Lemma x_plot_keeps_labels_witness :
  let row := fun u t => {| unique_id := u; ds := t; y := S754_zero false |} in
  let before := [row "HUFL" 0; row "HUFL" 900] in
  let rows := [row "HULL" 0; row "HULL" 900] in
  let rest := [row "OT" 0; row "OT" 900] in
  Forall (fun r => unique_id r <> "HULL") before
  /\ Forall (fun r => unique_id r = "HULL") rows
  /\ Forall (fun r => unique_id r <> "HULL") rest
  /\ labels (x_plot (before ++ rows ++ rest) "HULL") = seqZ 2 2
  /\ map snd (x_plot (before ++ rows ++ rest) "HULL") = [0; 900].
Proof.
  intros row before rows rest.
  assert (H1 : Forall (fun r => unique_id r <> "HULL") before)
    by (repeat constructor; discriminate).
  assert (H2 : Forall (fun r => unique_id r = "HULL") rows)
    by (repeat constructor).
  assert (H3 : Forall (fun r => unique_id r <> "HULL") rest)
    by (repeat constructor; discriminate).
  split; [exact H1|]. split; [exact H2|]. split; [exact H3|].
  exact (x_plot_keeps_labels before rows rest "HULL" H1 H2 H3).
Defined.

(** X5.  The markers are looked up by label, so they are found for the
    series at the top of the frame only: for a series whose rows start
    at the label [n_time] or later, as every series but the first of a
    frame of equally long series does, both look-ups fail once
    [n_time >= 5]. *)
Theorem markers_missing_for_later_series
  (before rows rest : frame) (u_id : string) :
  Forall (fun r => unique_id r <> u_id) before ->
  Forall (fun r => unique_id r = u_id) rows ->
  Forall (fun r => unique_id r <> u_id) rest ->
  let Y_df := before ++ rows ++ rest in
  5 <= n_time Y_df <= Z.of_nat (length before) ->
  x_val (x_plot Y_df u_id) (n_time Y_df) = None
  /\ x_test (x_plot Y_df u_id) (n_time Y_df) = None.
Proof.
  intros Hbefore Hrows Hrest Y_df [H5 Hoff].
  assert (Hl : labels (x_plot Y_df u_id)
               = seqZ (Z.of_nat (length before)) (Z.of_nat (length rows))).
  { unfold x_plot, labels, Y_df.
    rewrite (selected_rows before rows rest u_id Hbefore Hrows Hrest), map_map.
    cbn [fst].
    change (map (fun x : Z * observation => fst x)) with (@map (Z * observation) Z fst).
    apply map_fst_zip. rewrite length_seqZ. lia. }
  set (n := n_time Y_df) in *.
  unfold x_val, x_test. change (test_size n) with (val_size n).
  destruct (val_size_spec n ltac:(lia)) as [(t & Ht & H0 & H2 & Ht5) | [Hnone _]].
  - rewrite Ht. cbn [mbind option_bind].
    split; apply (getitem_missing _ _ _ _ Hl); lia.
  - rewrite Hnone. split; reflexivity.
Qed.

Lemma markers_missing_for_later_series_witness :
  let row := fun u t => {| unique_id := u; ds := t; y := S754_zero false |} in
  let series := fun u => map (row u) [0; 900; 1800; 2700; 3600] in
  let Y_df := series "HUFL" ++ series "HULL" ++ [] in
  Forall (fun r => unique_id r <> "HULL") (series "HUFL")
  /\ Forall (fun r => unique_id r = "HULL") (series "HULL")
  /\ 5 <= n_time Y_df <= Z.of_nat (length (series "HUFL"))
  /\ x_val (x_plot Y_df "HULL") (n_time Y_df) = None
  /\ x_test (x_plot Y_df "HULL") (n_time Y_df) = None.
Proof.
  intros row series Y_df.
  assert (H1 : Forall (fun r => unique_id r <> "HULL") (series "HUFL"))
    by (repeat constructor; discriminate).
  assert (H2 : Forall (fun r => unique_id r = "HULL") (series "HULL"))
    by (repeat constructor).
  assert (H3 : 5 <= n_time Y_df <= Z.of_nat (length (series "HUFL")))
    by (change (n_time Y_df) with 5; cbn; lia).
  split; [exact H1|]. split; [exact H2|]. split; [exact H3|].
  exact (markers_missing_for_later_series (series "HUFL") (series "HULL") []
           "HULL" H1 H2 (Forall_nil_2 _) H3).
Defined.

(** X6.  For the series at the top of the frame and a length from 5 to
    2^51, both markers are found: the validation marker is the timestamp
    at position [n_time - 2 * (n_time // 5)], the test marker the one at
    position [n_time - n_time // 5], later in the series, and at least
    three fifths of the timestamps come before the validation marker. *)
Theorem split_markers_found (x_plot : series Z) (n_time : Z) :
  labels x_plot = seqZ 0 n_time ->
  5 <= n_time <= 2 ^ 51 ->
  let fifth := n_time / 5 in
  exists a b,
    x_val x_plot n_time = Some a
    /\ x_test x_plot n_time = Some b
    /\ x_plot !! Z.to_nat (n_time - fifth - fifth) = Some (n_time - fifth - fifth, a)
    /\ x_plot !! Z.to_nat (n_time - fifth) = Some (n_time - fifth, b)
    /\ 0 <= n_time - fifth - fifth < n_time - fifth
    /\ n_time - fifth < n_time
    /\ 3 * n_time <= 5 * (n_time - fifth - fifth).
Proof.
  intros Hl [H5 Hn] fifth.
  pose proof (val_size_fifth n_time ltac:(lia)) as Hv. fold fifth in Hv.
  assert (Ht : test_size n_time = Some fifth) by exact Hv.
  assert (Hf : 1 <= fifth) by (apply Z.div_le_lower_bound; lia).
  pose proof (Z.mul_div_le n_time 5 ltac:(lia)) as Hf5. fold fifth in Hf5.
  destruct (getitem_position x_plot 0 n_time (n_time - fifth - fifth) Hl ltac:(lia))
    as (a & Ha & Hpa).
  destruct (getitem_position x_plot 0 n_time (n_time - fifth) Hl ltac:(lia))
    as (b & Hb & Hpb).
  rewrite Z.sub_0_r in Hpa, Hpb.
  exists a, b. unfold x_val, x_test. rewrite Hv, Ht. cbn [mbind option_bind].
  repeat split; try assumption; lia.
Qed.

Lemma split_markers_found_witness :
  let x_plot : series Z := zip (seqZ 0 10) (seqZ 100 10) in
  labels x_plot = seqZ 0 10
  /\ 5 <= 10 <= 2 ^ 51
  /\ exists a b,
       x_val x_plot 10 = Some a
       /\ x_test x_plot 10 = Some b
       /\ x_plot !! Z.to_nat (10 - 10 / 5 - 10 / 5) = Some (10 - 10 / 5 - 10 / 5, a)
       /\ x_plot !! Z.to_nat (10 - 10 / 5) = Some (10 - 10 / 5, b)
       /\ 0 <= 10 - 10 / 5 - 10 / 5 < 10 - 10 / 5
       /\ 10 - 10 / 5 < 10
       /\ 3 * 10 <= 5 * (10 - 10 / 5 - 10 / 5).
Proof.
  intros x_plot.
  split; [reflexivity|]. split; [lia|].
  apply (split_markers_found x_plot 10); [reflexivity | lia].
Defined.

End Markers.

(* ================================================================== *)
(** * Windows of the parsed results *)
(* ================================================================== *)

Section Windows.

Import Evaluate.



Lemma normalize_index_in_range (dim i : Z) :
  0 <= i < dim -> normalize_index dim i = Some i.
Proof.
  intros [H0 H1]. unfold normalize_index.
  replace (Z.leb 0 i) with true by (symmetry; apply Z.leb_le; lia).
  replace (Z.ltb i dim) with true by (symmetry; apply Z.ltb_lt; lia).
  reflexivity.
Qed.

Lemma normalize_index_is_Some (dim i : Z) :
  is_Some (normalize_index dim i) <-> - dim <= i < dim.
Proof.
  unfold normalize_index.
  destruct (Z.leb_spec 0 i), (Z.ltb_spec i dim); cbn [andb].
  - split; [lia | intros _; eexists; reflexivity].
  - destruct (Z.leb_spec (- dim) i), (Z.ltb_spec i 0); cbn [andb];
      (split; [intros [x Hx]; try discriminate; lia | lia]).
  - destruct (Z.leb_spec (- dim) i), (Z.ltb_spec i 0); cbn [andb];
      (split; [intros [x Hx]; try discriminate; lia
              | intros; try lia; eexists; reflexivity]).
  - destruct (Z.leb_spec (- dim) i), (Z.ltb_spec i 0); cbn [andb];
      (split; [intros [x Hx]; try discriminate; lia
              | intros; try lia; eexists; reflexivity]).
Qed.

(** X8.  Once both columns are reshaped, the window [w] of the series
    [s] of [y_true] and that of [y_hat] are the columns [y] and
    [AutoNHITS] of the same [horizon] consecutive rows of [fcst_df],
    those from row [(s * n_windows + w) * horizon] on: the two curves of
    a plot belong to the same observations. *)
Theorem windows_are_aligned
  (fcst_df : list forecast) (n_series s w : Z) (a b : ndarray) :
  parsed (y_true fcst_df) n_series = Some a ->
  parsed (y_hat fcst_df) n_series = Some b ->
  let n_windows := Z.of_nat (length fcst_df) / (n_series * horizon) in
  0 <= s < n_series ->
  0 <= w < n_windows ->
  let rows := take (Z.to_nat horizon)
                   (drop (Z.to_nat ((s * n_windows + w) * horizon)) fcst_df) in
  Z.of_nat (length rows) = horizon
  /\ getitem_window a s w = Some {| shape := [horizon]; data := map y rows |}
  /\ getitem_window b s w = Some {| shape := [horizon]; data := map AutoNHITS rows |}.
Proof.
  intros Ha Hb n_windows Hs Hw rows.
  assert (Hst : size (y_true fcst_df) = Z.of_nat (length fcst_df))
    by (unfold size, y_true, values; cbn [data]; rewrite length_map; reflexivity).
  assert (Hsh : size (y_hat fcst_df) = Z.of_nat (length fcst_df))
    by (unfold size, y_hat, values; cbn [data]; rewrite length_map; reflexivity).
  assert (Hpos : 0 < n_series) by lia.
  destruct (parsed_spec (y_true fcst_df) n_series Hpos) as [Hiff Hall].
  destruct (Hall a Ha) as (Hsa & Hda).
  destruct (parsed_spec (y_hat fcst_df) n_series Hpos) as [_ Hallb].
  destruct (Hallb b Hb) as (Hsb & Hdb).
  assert (Hdiv : (n_series * horizon | Z.of_nat (length fcst_df))).
  { rewrite <- Hst. apply Hiff. eexists. exact Ha. }
  rewrite Hst in Hsa. rewrite Hsh in Hsb. fold n_windows in Hsa, Hsb.
  assert (Hlen : Z.of_nat (length fcst_df) = n_series * n_windows * horizon).
  { destruct Hdiv as [q Hq]. unfold n_windows. rewrite Hq.
    rewrite Z.div_mul by (unfold horizon; lia). lia. }
  assert (Hh : 0 < horizon) by (unfold horizon; lia).
  assert (Hoff : 0 <= (s * n_windows + w) * horizon) by nia.
  assert (Hfit : (s * n_windows + w) * horizon + horizon <= Z.of_nat (length fcst_df)).
  { rewrite Hlen.
    assert (Hsw : s * n_windows + w + 1 <= n_series * n_windows) by nia.
    replace ((s * n_windows + w) * horizon + horizon)
      with ((s * n_windows + w + 1) * horizon) by ring.
    apply Z.mul_le_mono_nonneg_r; lia. }
  assert (Hrows : Z.of_nat (length rows) = horizon).
  { unfold rows. rewrite length_take, length_drop. lia. }
  split; [exact Hrows|].
  unfold getitem_window. rewrite Hsa, Hsb, Hda, Hdb.
  rewrite (normalize_index_in_range n_series s Hs).
  rewrite (normalize_index_in_range n_windows w Hw).
  cbn [mbind option_bind]. unfold product. cbn [fold_right].
  rewrite Z.mul_1_r.
  unfold y_true, y_hat, values. cbn [data].
  unfold rows. rewrite <- !firstn_map, <- !skipn_map. split; reflexivity.
Qed.

Lemma windows_are_aligned_witness :
  let row := fun v => {| unique_id := "HUFL"; ds := 0; cutoff := 0;
                         AutoNHITS := S754_zero v; y := S754_zero (negb v) |} in
  let fcst_df := repeat (row false) 96 ++ repeat (row true) 96 in
  let a := {| shape := [1; 2; 96]; data := map y fcst_df |} in
  let b := {| shape := [1; 2; 96]; data := map AutoNHITS fcst_df |} in
  parsed (y_true fcst_df) 1 = Some a
  /\ parsed (y_hat fcst_df) 1 = Some b
  /\ getitem_window a 0 1
     = Some {| shape := [horizon]; data := repeat (S754_zero false) 96 |}
  /\ getitem_window b 0 1
     = Some {| shape := [horizon]; data := repeat (S754_zero true) 96 |}.
Proof.
  intros row fcst_df a b.
  assert (Ha : parsed (y_true fcst_df) 1 = Some a) by reflexivity.
  assert (Hb : parsed (y_hat fcst_df) 1 = Some b) by reflexivity.
  split; [exact Ha|]. split; [exact Hb|].
  assert (Hs : 0 <= 0 < 1) by lia.
  assert (Hw : 0 <= 1 < Z.of_nat (length fcst_df) / (1 * horizon))
    by (vm_compute; split; [discriminate | reflexivity]).
  exact (proj2 (windows_are_aligned fcst_df 1 0 1 a b Ha Hb Hs Hw)).
Defined.

(** X9.  The last plot draws the windows 200, 300 and 400 of the series
    of index 3: on an array of shape [(n_series, n_windows, h)] all its
    look-ups succeed exactly when there are at least 4 series and 401
    windows; with fewer the cell stops on an IndexError. *)
Theorem plotted_needs_windows (a : ndarray) (n_series n_windows h : Z) :
  shape a = [n_series; n_windows; h] ->
  0 <= n_series -> 0 <= n_windows ->
  (is_Some (plotted a) <-> 4 <= n_series /\ 401 <= n_windows).
Proof.
  intros Hshape Hn Hw.
  assert (Hone : forall j, 0 <= j ->
            (is_Some (getitem_window a series_idx j)
             <-> 3 < n_series /\ j < n_windows)).
  { intros j Hj. unfold getitem_window, series_idx. rewrite Hshape.
    pose proof (normalize_index_is_Some n_series 3) as H3.
    pose proof (normalize_index_is_Some n_windows j) as Hjw.
    destruct (normalize_index n_series 3) as [i'|]; cbn [mbind option_bind].
    - destruct (normalize_index n_windows j) as [j'|]; cbn [mbind option_bind].
      + split; [intros _|intros _; eexists; reflexivity].
        assert (is_Some (Some i')) as Hi by (eexists; reflexivity).
        assert (is_Some (Some j')) as Hj' by (eexists; reflexivity).
        apply H3 in Hi. apply Hjw in Hj'. lia.
      + split; [intros [x Hx]; discriminate|].
        intros [_ Hlt]. assert (is_Some (@None Z)) as [x Hx] by (apply Hjw; lia).
        discriminate.
    - split; [intros [x Hx]; discriminate|].
      intros [Hlt _]. assert (is_Some (@None Z)) as [x Hx] by (apply H3; lia).
      discriminate. }
  unfold plotted, plotted_windows.
  pose proof (Hone 200 ltac:(lia)) as H200.
  pose proof (Hone 300 ltac:(lia)) as H300.
  pose proof (Hone 400 ltac:(lia)) as H400.
  cbn [mapM mbind option_bind mret option_ret].
  destruct (getitem_window a series_idx 200) as [x1|];
  destruct (getitem_window a series_idx 300) as [x2|];
  destruct (getitem_window a series_idx 400) as [x3|]; cbn;
    (split;
     [ intros [x Hx]; try discriminate;
       assert (is_Some (Some x3)) as H by (eexists; reflexivity);
       apply H400 in H; lia
     | intros [H4 H401];
       try (eexists; reflexivity);
       try (assert (is_Some (@None ndarray)) as [x Hx] by (apply H200; lia); discriminate);
       try (assert (is_Some (@None ndarray)) as [x Hx] by (apply H300; lia); discriminate);
       try (assert (is_Some (@None ndarray)) as [x Hx] by (apply H400; lia); discriminate) ]).
Qed.

Lemma plotted_needs_windows_witness :
  let a := {| shape := [7; 300; 96]; data := [] |} in
  shape a = [7; 300; 96] /\ 0 <= 7 /\ 0 <= 300 /\ ~ is_Some (plotted a).
Proof.
  intros a.
  split; [reflexivity|]. split; [lia|]. split; [lia|].
  intros Hsome.
  apply (plotted_needs_windows a 7 300 96) in Hsome; [lia | reflexivity | lia | lia].
Defined.

End Windows.

(* ================================================================== *)
(** * The size of a frame *)
(* ================================================================== *)

Section FrameSize.

Import Splits.

Lemma map_snd_filter_zip {A B} (f : B -> bool) (l : list B) :
  forall ks : list A, length ks = length l ->
    map snd (List.filter (fun p => f (snd p)) (zip ks l)) = List.filter f l.
Proof.
  induction l as [|b l IH]; intros [|k ks] Hlen; try discriminate; try reflexivity.
  cbn [zip_with List.filter snd]. destruct (f b); cbn [map snd].
  - f_equal. apply IH. cbn in Hlen. lia.
  - apply IH. cbn in Hlen. lia.
Qed.

Lemma x_plot_values (Y_df : frame) (u_id : string) :
  map snd (x_plot Y_df u_id)
  = map ds (List.filter (fun r => String.eqb (unique_id r) u_id) Y_df).
Proof.
  unfold x_plot, labelled. rewrite map_map. cbn [snd].
  rewrite <- (map_snd_filter_zip (fun r => String.eqb (unique_id r) u_id) Y_df
                (seqZ 0 (Z.of_nat (length Y_df)))).
  - rewrite map_map. reflexivity.
  - rewrite length_seqZ. lia.
Qed.

Lemma series_timestamps_distinct (Y_df : frame) (u_id : string) :
  NoDup (map (fun r => (unique_id r, ds r)) Y_df) ->
  NoDup (map ds (List.filter (fun r => String.eqb (unique_id r) u_id) Y_df)).
Proof.
  induction Y_df as [|r rest IH]; intros Hnd; [constructor|].
  cbn [map] in Hnd. apply NoDup_cons in Hnd. destruct Hnd as [Hnotin Hnd].
  cbn [List.filter]. destruct (String.eqb_spec (unique_id r) u_id) as [Heq | Hne].
  - cbn [map]. apply NoDup_cons. split; [|exact (IH Hnd)].
    intros Hin. apply list_elem_of_In, in_map_iff in Hin.
    destruct Hin as (r' & Hds & Hin').
    apply filter_In in Hin'. destruct Hin' as [Hin' Hu].
    apply String.eqb_eq in Hu.
    apply Hnotin. apply list_elem_of_In, in_map_iff. exists r'. split; [|exact Hin'].
    rewrite Hu, Hds, Heq. reflexivity.
  - exact (IH Hnd).
Qed.

Lemma NoDup_length_le {A} (l k : list A) :
  NoDup l -> (forall x, List.In x l -> List.In x k) -> (length l <= length k)%nat.
Proof.
  intros Hnd Hin. apply submseteq_length, NoDup_submseteq; [exact Hnd|].
  intros x Hx. apply list_elem_of_In, Hin, list_elem_of_In, Hx.
Qed.

(** X10.  In a frame with one row per series and timestamp at most, a
    series has at most [n_time] rows, so has [x_plot], and the frame has
    at most [n_series * n_time] rows: [n_time], counted over the whole
    frame, bounds the length of every series from above. *)
Theorem frame_rows_bounded (Y_df : frame) :
  NoDup (map (fun r => (unique_id r, ds r)) Y_df) ->
  Z.of_nat (length Y_df) <= Evaluate.n_series Y_df * n_time Y_df
  /\ forall u_id, Z.of_nat (length (x_plot Y_df u_id)) <= n_time Y_df.
Proof.
  intros Hnd. split.
  - unfold Evaluate.n_series, n_time. rewrite <- Nat2Z.inj_mul.
    apply inj_le.
    rewrite <- length_prod, <- (length_map (fun r => (unique_id r, ds r)) Y_df).
    apply NoDup_length_le; [exact Hnd|].
    intros p Hin. apply in_map_iff in Hin. destruct Hin as (r & <- & Hin).
    apply in_prod; apply list_elem_of_In, elem_of_remove_dups, list_elem_of_In.
    + apply in_map. exact Hin.
    + apply in_map. exact Hin.
  - intros u_id. unfold n_time. apply inj_le.
    rewrite <- (length_map snd (x_plot Y_df u_id)), x_plot_values.
    apply NoDup_length_le; [apply series_timestamps_distinct; exact Hnd|].
    intros t Hin. apply in_map_iff in Hin. destruct Hin as (r & <- & Hin).
    apply filter_In in Hin. destruct Hin as [Hin _].
    apply list_elem_of_In, elem_of_remove_dups, list_elem_of_In.
    apply in_map. exact Hin.
Qed.

Lemma frame_rows_bounded_witness :
  let row := fun u t => {| unique_id := u; ds := t; y := S754_zero false |} in
  let Y_df := [row "HUFL" 0; row "HUFL" 1; row "HUFL" 2; row "OT" 1] in
  Z.of_nat (length Y_df) <= Evaluate.n_series Y_df * n_time Y_df
  /\ Z.of_nat (length (x_plot Y_df "OT")) <= n_time Y_df.
Proof.
  intros row Y_df.
  assert (Hnd : NoDup (map (fun r => (unique_id r, ds r)) Y_df)).
  { apply NoDup_ListNoDup. cbn.
    repeat (apply List.NoDup_cons;
            [cbn; intros H; repeat (destruct H as [H|H]; [discriminate H|]);
             exact H|]).
    apply List.NoDup_nil. }
  split.
  - exact (proj1 (frame_rows_bounded Y_df Hnd)).
  - exact (proj2 (frame_rows_bounded Y_df Hnd) "OT").
Defined.

End FrameSize.

(* ================================================================== *)
(** * Names and the search space *)
(* ================================================================== *)

Section Names.

Import Analysis.


(** X12.  Of the twelve hyperparameters of [nhits_config] nine have a
    choice of one option and so are fixed; the search runs over
    [n_pool_kernel_size] (2 options), [n_freq_downsample] (3 options)
    and [random_seed] (the integers from 1 to 9), 54 configurations in
    all. *)
Theorem search_space_size :
  exists items,
    domain_items cells nhits_config = Some items
    /\ map (fun kd => (fst kd, cardinality (snd kd))) items
       = [("learning_rate", Some 1); ("max_steps", Some 1);
          ("input_size", Some 1); ("batch_size", Some 1);
          ("windows_batch_size", Some 1); ("n_pool_kernel_size", Some 2);
          ("n_freq_downsample", Some 3); ("activation", Some 1);
          ("n_blocks", Some 1); ("mlp_units", Some 1);
          ("interpolation_mode", Some 1); ("random_seed", Some 9)]
    /\ searched items = ["n_pool_kernel_size"; "n_freq_downsample"; "random_seed"]
    /\ configurations items = Some 54.
Proof.
  destruct (domain_items cells nhits_config) as [items|] eqn:Hitems;
    [|vm_compute in Hitems; discriminate].
  exists items. split; [reflexivity|].
  vm_compute in Hitems. injection Hitems as <-.
  split; [vm_compute; reflexivity|].
  split; vm_compute; reflexivity.
Qed.

End Names.
